(** * Elmor Labs KTH-USB reader: a shallow embedding of [main.py]

    The script polls a K-type thermometer over a serial line, keeps the
    readings in a pandas DataFrame of bounded length, appends them to a CSV
    file and redraws a chart.  This development embeds the parts of the
    script that touch the serial line, the DataFrame and the CSV file, and
    proves the properties stated about them.

    Layout: Python numbers and [int.from_bytes]; the settings and the
    register table; the DataFrame operations the script uses; the outside
    world (serial port, wall clock, CSV file, trace of effects) with a
    state-and-exception monad; the script's functions; a scripted device for
    examples; what is observed of a run; then the lemmas and the theorems. *)

From Stdlib Require Import String Ascii.
From Stdlib Require Import ZArith List Bool Lia.
From Stdlib Require Import Floats.
From Stdlib Require Import Strings.Byte.
Import ListNotations.

Local Open Scope Z_scope.

(* The table's [0.1] is read as the nearest binary64 number, as Python
   reads it. *)
#[local] Set Warnings "-inexact-float".

(* ================================================================= *)
(** ** Python numbers *)

(** The value column holds a Python [int] or a Python [float] (binary64):
    the table's multipliers are the float [0.1] and the int [1]. *)
Inductive py_num : Type :=
| PyInt (z : Z)
| PyFloat (f : float).

(** [float(z)]: the binary64 number nearest to [z], ties to even. *)
Definition float_of_int (z : Z) : float :=
  SF2Prim (binary_normalize prec emax z 0 false).

(** Python's [*] on numbers: an [int] operand is converted to [float] when
    the other one is a [float]. *)
Definition py_mul (a b : py_num) : py_num :=
  match a, b with
  | PyInt x, PyInt y => PyInt (x * y)
  | PyInt x, PyFloat g => PyFloat (PrimFloat.mul (float_of_int x) g)
  | PyFloat f, PyInt y => PyFloat (PrimFloat.mul f (float_of_int y))
  | PyFloat f, PyFloat g => PyFloat (PrimFloat.mul f g)
  end.

(** [x < 0] on Python numbers. *)
Definition py_negative (x : py_num) : bool :=
  match x with
  | PyInt z => z <? 0
  | PyFloat f => PrimFloat.ltb f PrimFloat.zero
  end.

(** [x == 0] on Python numbers. *)
Definition py_is_zero (x : py_num) : bool :=
  match x with
  | PyInt z => z =? 0
  | PyFloat f => PrimFloat.eqb f PrimFloat.zero
  end.

(* ================================================================= *)
(** ** Bytes and [int.from_bytes] *)

Definition byte_val (b : byte) : Z := Z.of_N (Byte.to_N b).

Definition byte_of_Z (z : Z) : byte :=
  match Byte.of_N (Z.to_N (z mod 256)) with
  | Some b => b
  | None => x00
  end.

(** Magnitude of a little-endian byte string: least significant byte
    first. *)
Fixpoint le_unsigned (bs : list byte) : Z :=
  match bs with
  | [] => 0
  | b :: tl => byte_val b + 256 * le_unsigned tl
  end.

(** The sign bit of a little-endian byte string is the top bit of its last
    byte; the empty string has none. *)
Definition sign_bit (bs : list byte) : bool :=
  128 <=? byte_val (last bs x00).

(** [int.from_bytes(bs, byteorder='little', signed=signed)], for a byte
    string of any length (the empty one gives 0). *)
Definition int_from_bytes (bs : list byte) (signed : bool) : Z :=
  if signed && sign_bit bs
  then le_unsigned bs - 2 ^ (8 * Z.of_nat (length bs))
  else le_unsigned bs.

(** The positional reading of a little-endian byte string, written as the
    sum of [byte i * 256^i]; [int_from_bytes] is compared with it below. *)
Definition positional_value (bs : list byte) : Z :=
  fold_right Z.add 0
    (map (fun i => byte_val (nth i bs x00) * 256 ^ Z.of_nat i)
         (seq 0 (length bs))).

Definition twos_complement_value (bs : list byte) (signed : bool) : Z :=
  if signed && Z.testbit (positional_value bs) (8 * Z.of_nat (length bs) - 1)
  then positional_value bs - 2 ^ (8 * Z.of_nat (length bs))
  else positional_value bs.

(** The device's side of the wire: [v.to_bytes(width, 'little',
    signed=signed)], [None] where Python raises [OverflowError]. *)
Fixpoint le_bytes (width : nat) (u : Z) : list byte :=
  match width with
  | O => []
  | S k => byte_of_Z u :: le_bytes k (u / 256)
  end.

Definition int_to_bytes (v : Z) (width : nat) (signed : bool)
  : option (list byte) :=
  let m := 2 ^ (8 * Z.of_nat width) in
  if signed
  then if (- m <=? 2 * v) && (2 * v <? m)
       then Some (le_bytes width (v mod m)) else None
  else if (0 <=? v) && (v <? m)
       then Some (le_bytes width v) else None.

(** [a == b] on [bytes]. *)
Fixpoint bytes_eqb (a b : list byte) : bool :=
  match a, b with
  | [], [] => true
  | x :: a', y :: b' => Byte.eqb x y && bytes_eqb a' b'
  | _, _ => false
  end.

(* ================================================================= *)
(** ** Settings *)

Record serial_settings : Type := mkSerialSettings {
  port : string;
  baudrate : Z;
  bytesize : Z;
  stopbits : Z;
  timeout : Z
}.

Definition kth_settings : serial_settings :=
  {| port := "COM9"; baudrate := 9600; bytesize := 8; stopbits := 1;
     timeout := 1 |}.

(** The three module-level switches of the script. *)
Record settings : Type := mkSettings {
  list_all_windows_ports : bool;
  save_to_csv : bool;
  max_length : Z
}.

(** Their values in [main.py]. *)
Definition module_settings : settings :=
  {| list_all_windows_ports := true; save_to_csv := true; max_length := 500 |}.

(* ================================================================= *)
(** ** The register table *)

(** One value of [communication_specs]: the list
    [[command, nr_of_bytes, multiplier, unit, signed]]. *)
Record sensor_spec : Type := mkSpec {
  command : list byte;
  nr_of_bytes : nat;
  multiplier : py_num;
  unit_label : string;
  signed : bool
}.

(** [communication_specs], in the order the dict literal declares its keys
    (the order [.items()] iterates in). *)
Definition communication_specs : list (string * sensor_spec) :=
  [ ("TC1"%string, mkSpec [x10] 2 (PyFloat 0.1%float) "T" true);
    ("TC2"%string, mkSpec [x11] 2 (PyFloat 0.1%float) "T" true);
    ("VDD"%string, mkSpec [x12] 4 (PyInt 1) "uV" true);
    ("TH1"%string, mkSpec [x14] 2 (PyInt 1) "ADC value" false);
    ("TH2"%string, mkSpec [x15] 2 (PyInt 1) "ADC value" false) ].

(** Line 95: [int.from_bytes(read_bytes[0:nr_of_bytes], byteorder='little',
    signed=signed) * multiplier]. *)
Definition decode (s : sensor_spec) (read_bytes : list byte) : py_num :=
  py_mul (PyInt (int_from_bytes (firstn (nr_of_bytes s) read_bytes) (signed s)))
         (multiplier s).

(* ================================================================= *)
(** ** DataFrames *)

(** A row with the columns ['timestamp', 'id', 'unit', 'value'].  The value
    is the number line 95 computes; the dtype pandas stores the column
    under is not modelled. *)
Record reading : Type := mkReading {
  row_timestamp : Z;
  row_id : string;
  row_unit : string;
  row_value : py_num
}.

(** A DataFrame with these four columns: its rows in order, each under its
    index label. *)
Definition dataframe : Type := list (Z * reading).

Definition index (df : dataframe) : list Z := map fst df.
Definition rows (df : dataframe) : list reading := map snd df.

(** [pd.DataFrame()]. *)
Definition empty_frame : dataframe := [].

(** The frame with the rows [rs] under the labels 0, 1, 2, ... *)
Definition frame_of (rs : list reading) : dataframe :=
  combine (map Z.of_nat (seq 0 (length rs))) rs.

(** [pd.concat([df, row], ignore_index=True)]: the rows of both, relabelled
    0, 1, 2, ... *)
Definition concat_ignore_index (df row : dataframe) : dataframe :=
  frame_of (rows df ++ rows row).

(** [df.index.max()] and [df.index.min()].  On an empty index pandas answers
    NaN, which is no row label: [None]. *)
Definition index_max (df : dataframe) : option Z :=
  match index df with
  | [] => None
  | l :: ls => Some (fold_left Z.max ls l)
  end.

Definition index_min (df : dataframe) : option Z :=
  match index df with
  | [] => None
  | l :: ls => Some (fold_left Z.min ls l)
  end.

Definition has_label (label : Z) (df : dataframe) : bool :=
  existsb (Z.eqb label) (index df).

(** [df.loc[label] = row]: overwrites the rows labelled [label]; when there
    is none, the frame is enlarged by one row at the end. *)
Definition loc_set (label : Z) (row : reading) (df : dataframe) : dataframe :=
  if has_label label df
  then map (fun p => if fst p =? label then (label, row) else p) df
  else df ++ [(label, row)].

(** Exceptions of the script.  [NoLabel] is not a Python exception: it marks
    the point where [df.index.max()+1] is NaN and names no row, which the
    embedding does not follow further. *)
Inductive exn : Type :=
| AssertionError
| KeyError
| NoLabel.

Inductive result (A : Type) : Type :=
| Ok (a : A)
| Raise (e : exn).
Arguments Ok {A} a.
Arguments Raise {A} e.

Definition rbind {A B} (r : result A) (f : A -> result B) : result B :=
  match r with
  | Ok a => f a
  | Raise e => Raise e
  end.

(** [df.drop(label, inplace=True)]: removes the rows labelled [label];
    [KeyError] when there is none. *)
Definition drop (label : Z) (df : dataframe) : result dataframe :=
  if has_label label df
  then Ok (filter (fun p => negb (fst p =? label)) df)
  else Raise KeyError.

(** Line 117: [df.loc[df.index.max()+1] = row]. *)
Definition loc_next (df : dataframe) (row : reading) : result dataframe :=
  match index_max df with
  | Some m => Ok (loc_set (m + 1) row df)
  | None => Raise NoLabel
  end.

(** Lines 116-117: the loop over [df_new_data.iterrows()]. *)
Fixpoint append_rows (df_new_data : dataframe) (df : dataframe)
  : result dataframe :=
  match df_new_data with
  | [] => Ok df
  | (_, row) :: rest => rbind (loc_next df row) (append_rows rest)
  end.

(** Line 122: [df.drop(df.index.min(), inplace=True)]. *)
Definition drop_oldest (df : dataframe) : result dataframe :=
  match index_min df with
  | Some m => drop m df
  | None => Raise KeyError
  end.

(** Lines 121-122: [for _ in range(n): df.drop(df.index.min(), ...)]. *)
Fixpoint drop_oldest_n (n : nat) (df : dataframe) : result dataframe :=
  match n with
  | O => Ok df
  | S k => rbind (drop_oldest df) (drop_oldest_n k)
  end.

(** Lines 115-122 of [animation_update]: append the new rows, then drop as
    many as were appended when the frame is longer than [max_length]. *)
Definition ingest (limit : Z) (df df_new_data : dataframe)
  : result dataframe :=
  rbind (append_rows df_new_data df) (fun df1 =>
    if limit <? Z.of_nat (length df1)
    then drop_oldest_n (length df_new_data) df1
    else Ok df1).

(* ================================================================= *)
(** ** The outside world *)

(** What pyserial gives the script.  [Line] is the state of the port and of
    the device behind it; every call may change it.  [port_read size] is
    [ser.read(size)]: the bytes received before the timeout, which may be
    fewer than [size].  The port answers every call: a [SerialException]
    (port missing, cable pulled) ends the script and is outside the
    model. *)
Class SerialPort (Line : Type) : Type := {
  comports : Line -> list string;
  port_open : serial_settings -> Line -> Line;
  port_write : list byte -> Line -> Line;
  port_flush : Line -> Line;
  port_read : nat -> Line -> list byte * Line;
  port_close : Line -> Line
}.

(** [datetime.today()], as a [pd.Timestamp]: nanoseconds since the epoch. *)
Class WallClock (Clock : Type) : Type := {
  clock_today : Clock -> Z * Clock
}.

(** Arguments of a [print] call. *)
Inductive printed : Type :=
| PStr (s : string)
| PBytes (bs : list byte).

(** What the script does to the port and to the terminal, in order. *)
Inductive event : Type :=
| EvOpen (cfg : serial_settings)
| EvWrite (data : list byte)
| EvFlush
| EvRead (size : nat) (data : list byte)
| EvClose
| EvPrint (args : list printed).

(** Lines of 'temperature_measurements.csv'. *)
Inductive csv_line : Type :=
| CsvHeader (columns : list string)
| CsvRecord (r : reading).

Record world (Line Clock : Type) : Type := mkWorld {
  w_line : Line;
  w_clock : Clock;
  w_csv : option (list csv_line);   (* [None]: the file does not exist *)
  w_trace : list event              (* oldest first *)
}.
Arguments mkWorld {Line Clock}.
Arguments w_line {Line Clock}.
Arguments w_clock {Line Clock}.
Arguments w_csv {Line Clock}.
Arguments w_trace {Line Clock}.

Definition csv_columns : list string :=
  ["timestamp"; "id"; "unit"; "value"]%string.

Definition csv_lines (f : option (list csv_line)) : list csv_line :=
  match f with
  | Some ls => ls
  | None => []
  end.

Definition is_open (e : event) : bool :=
  match e with
  | EvOpen _ => true
  | _ => false
  end.

Definition is_close (e : event) : bool :=
  match e with
  | EvClose => true
  | _ => false
  end.

(** The payloads written to the port and the sizes asked of it, in order. *)
Definition writes_of (t : list event) : list (list byte) :=
  flat_map (fun e => match e with EvWrite d => [d] | _ => [] end) t.

Definition reads_of (t : list event) : list (nat * list byte) :=
  flat_map (fun e => match e with EvRead n d => [(n, d)] | _ => [] end) t.

Section Script.

Context {Line Clock : Type} `{SerialPort Line} `{WallClock Clock}.

Abbreviation World := (world Line Clock).

(** State and exceptions.  [bind] takes the two components of [m w] by
    projection, so that a run on an arbitrary port unfolds step by step. *)
Definition M (A : Type) : Type := World -> result A * World.

Definition ret {A} (a : A) : M A := fun w => (Ok a, w).

Definition raise {A} (e : exn) : M A := fun w => (Raise e, w).

Definition bind {A B} (m : M A) (f : A -> M B) : M B :=
  fun w =>
    match fst (m w) with
    | Ok a => f a (snd (m w))
    | Raise e => (Raise e, snd (m w))
    end.

Definition lift {A} (r : result A) : M A := fun w => (r, w).

Notation "x <- c1 ;; c2" := (bind c1 (fun x => c2))
  (at level 61, c1 at next level, right associativity).
Notation "c1 ;; c2" := (bind c1 (fun _ => c2))
  (at level 61, right associativity).

Definition emit (e : event) (w : World) : World :=
  mkWorld (w_line w) (w_clock w) (w_csv w) (w_trace w ++ [e]).

Definition print (args : list printed) : M unit :=
  fun w => (Ok tt, emit (EvPrint args) w).

Definition ser_write (data : list byte) : M unit :=
  fun w =>
    (Ok tt,
     emit (EvWrite data)
          (mkWorld (port_write data (w_line w)) (w_clock w) (w_csv w)
                   (w_trace w))).

Definition ser_flush : M unit :=
  fun w =>
    (Ok tt,
     emit EvFlush
          (mkWorld (port_flush (w_line w)) (w_clock w) (w_csv w)
                   (w_trace w))).

Definition ser_read (size : nat) : M (list byte) :=
  fun w =>
    let r := port_read size (w_line w) in
    (Ok (fst r),
     emit (EvRead size (fst r))
          (mkWorld (snd r) (w_clock w) (w_csv w) (w_trace w))).

(** [with serial.Serial(...) as ser: body], the keyword arguments unpacked
    from [cfg]: the port is opened on entry and closed on exit, also when
    [body] raises. *)
Definition with_serial {A} (cfg : serial_settings) (body : M A) : M A :=
  fun w =>
    let w1 := emit (EvOpen cfg)
                   (mkWorld (port_open cfg (w_line w)) (w_clock w)
                            (w_csv w) (w_trace w)) in
    let r := body w1 in
    (fst r,
     emit EvClose
          (mkWorld (port_close (w_line (snd r))) (w_clock (snd r))
                   (w_csv (snd r)) (w_trace (snd r)))).

(** [pd.Timestamp(datetime.today())]. *)
Definition today : M Z :=
  fun w =>
    let r := clock_today (w_clock w) in
    (Ok (fst r), mkWorld (w_line w) (snd r) (w_csv w) (w_trace w)).

(** [assert cond]. *)
Definition assert_ (cond : bool) : M unit :=
  if cond then ret tt else raise AssertionError.

(** [df.to_csv('temperature_measurements.csv', index=False)]: mode 'w',
    with the header row; whatever the file held is replaced. *)
Definition to_csv_write (df : dataframe) : M unit :=
  fun w =>
    (Ok tt,
     mkWorld (w_line w) (w_clock w)
             (Some (CsvHeader csv_columns :: map CsvRecord (rows df)))
             (w_trace w)).

(** [df.to_csv('temperature_measurements.csv', mode='a', header=False,
    index=False)]: the rows are added after the file's lines; the file is
    created when it does not exist. *)
Definition to_csv_append (df : dataframe) : M unit :=
  fun w =>
    (Ok tt,
     mkWorld (w_line w) (w_clock w)
             (Some (csv_lines (w_csv w) ++ map CsvRecord (rows df)))
             (w_trace w)).

(** A [for] loop that rebinds one variable. *)
Fixpoint for_each {A S} (xs : list A) (body : S -> A -> M S) (s : S) : M S :=
  match xs with
  | [] => ret s
  | x :: rest => s' <- body s x ;; for_each rest body s'
  end.

(** [check_connection()], lines 28-59. *)
Definition check_connection : M unit :=
  with_serial kth_settings (
    ser_write [x00] ;;
    ser_flush ;;
    read_bytes <- ser_read 100 ;;
    print [PBytes read_bytes] ;;
    ser_write [x01] ;;
    ser_flush ;;
    read_bytes <- ser_read 100 ;;
    print [PStr "Device ID: "; PBytes read_bytes] ;;
    assert_ (bytes_eqb read_bytes [x0d; xee]) ;;
    ser_write [x02] ;;
    ser_flush ;;
    read_bytes <- ser_read 100 ;;
    print [PStr "Unique ID: "; PBytes read_bytes] ;;
    ser_write [x03] ;;
    ser_flush ;;
    read_bytes <- ser_read 100 ;;
    print [PStr "Firmware version: "; PBytes read_bytes]).

(** The body of the loop of [get_new_sensor_values], lines 84-99. *)
Definition read_sensor (df : dataframe) (item : string * sensor_spec)
  : M dataframe :=
  let name := fst item in
  let value := snd item in
  timestamp <- today ;;
  ser_write (command value) ;;
  ser_flush ;;
  read_bytes <- ser_read (nr_of_bytes value) ;;
  let result := decode value read_bytes in
  let row := [(0, mkReading timestamp name (unit_label value) result)] in
  ret (concat_ignore_index df row).

(** [get_new_sensor_values(save_to_csv)], lines 62-104. *)
Definition get_new_sensor_values (save : bool) : M dataframe :=
  df <- with_serial kth_settings
          (for_each communication_specs read_sensor empty_frame) ;;
  (if save then to_csv_append df else ret tt) ;;
  ret df.

(** Lines 157-161: the ports are listed, one [print] each. *)
Definition list_ports : M unit :=
  fun w =>
    (print [PStr (String (ascii_of_nat 10) "USB PORTS: ")] ;;
     for_each (comports (w_line w)) (fun _ p => print [PStr p]) tt ;;
     print []) w.

Variable cfg : settings.

(** [animation_update(i, df)], lines 107-122: the new batch is collected
    (and appended to the file when [save_to_csv] is set), then merged
    into [df], which the caller keeps.  Lines 124-151 read [df] into a new
    frame and draw it; they change neither [df], the file nor the port and
    are left out.  They can raise - [pivot] raises [ValueError] when two
    rows kept by the unit filter share timestamp and id - and the exception
    ends the frame after its merge: a run of the script is a run of this
    model up to the frame whose drawing fails, so [Ok] below says that
    collection and merge ended normally, not that the chart was drawn. *)
Definition animation_update (df : dataframe) : M dataframe :=
  df_new_data <- get_new_sensor_values (save_to_csv cfg) ;;
  lift (ingest (max_length cfg) df df_new_data).

(** Lines 156-168 of the main block. *)
Definition startup : M dataframe :=
  (if list_all_windows_ports cfg then list_ports else ret tt) ;;
  check_connection ;;
  df <- get_new_sensor_values false ;;
  (if save_to_csv cfg then to_csv_write df else ret tt) ;;
  ret df.

(** [FuncAnimation] calls [animation_update] with the same [df] object
    once per frame. *)
Fixpoint animate (frames : nat) (df : dataframe) : M dataframe :=
  match frames with
  | O => ret df
  | S k => df' <- animation_update df ;; animate k df'
  end.

(** The main block, run for [frames] frames. *)
Definition main (frames : nat) : M dataframe :=
  df <- startup ;;
  animate frames df.

End Script.

(* ================================================================= *)
(** ** A scripted device *)

(** A port for examples: the device answers each command with the bytes its
    table gives (nothing for a command it does not know), the answers queue
    up in the receive buffer, and a read takes what is there, up to the size
    asked.  Opening the port empties the buffer.  The clock ticks once per
    call. *)
Module Mock.

Record line : Type := mkLine {
  device : list (list byte * list byte);
  rx : list byte
}.

Fixpoint answer (table : list (list byte * list byte)) (cmd : list byte)
  : list byte :=
  match table with
  | [] => []
  | (c, a) :: rest => if bytes_eqb c cmd then a else answer rest cmd
  end.

#[global] Instance serial : SerialPort line := {
  comports := fun _ => ["COM9"%string];
  port_open := fun _ l => mkLine (device l) [];
  port_write := fun data l => mkLine (device l) (rx l ++ answer (device l) data);
  port_flush := fun l => l;
  port_read := fun size l =>
    (firstn size (rx l), mkLine (device l) (skipn size (rx l)));
  port_close := fun l => mkLine (device l) []
}.

#[global] Instance clock : WallClock Z := {
  clock_today := fun c => (c, c + 1)
}.

(** A thermometer: 1.0 degrees on TC1, -0.1 on TC2. *)
Definition kth : list (list byte * list byte) :=
  [ ([x00], [x4b; x54; x48]);
    ([x01], [x0d; xee]);
    ([x02], [x01; x02; x03; x04]);
    ([x03], [x01; x00]);
    ([x10], [x0a; x00]);
    ([x11], [xff; xff]);
    ([x12], [x40; x4b; x4c; x00]);
    ([x14], [x34; x12]);
    ([x15], [xff; xff]) ].

(** Some other device: it answers the device-ID probe differently. *)
Definition stranger : list (list byte * list byte) :=
  [ ([x00], [x3f]); ([x01], [x0d; xef]); ([x10], [x0a; x00]) ].

(** A thermometer that answers TC1 with one byte and VDD with none. *)
Definition slow_kth : list (list byte * list byte) :=
  [ ([x01], [x0d; xee]);
    ([x10], [xfe]);
    ([x11], [x05; x00]);
    ([x14], [x34; x12]);
    ([x15], [x01; x00]) ].

(** The world at start: the given device, clock at [t0], the CSV file as
    given, nothing done yet. *)
Definition boot (dev : list (list byte * list byte)) (t0 : Z)
           (file : option (list csv_line)) : world line Z :=
  mkWorld (mkLine dev []) t0 file [].

(** The lines an earlier run left in the file. *)
Definition old_log : list csv_line :=
  [ CsvHeader csv_columns;
    CsvRecord (mkReading 1 "TC1" "T" (PyFloat 20.5%float));
    CsvRecord (mkReading 2 "TC2" "T" (PyFloat 21%float)) ].

End Mock.

(* ================================================================= *)
(** ** Observations on a run *)

(** The answer to a command, read off a trace: the data of the first read
    that follows the first write of [cmd]. *)
Fixpoint next_read (t : list event) : option (list byte) :=
  match t with
  | [] => None
  | EvRead _ d :: _ => Some d
  | _ :: rest => next_read rest
  end.

Fixpoint response_to (cmd : list byte) (t : list event) : option (list byte) :=
  match t with
  | [] => None
  | EvWrite c :: rest =>
      if bytes_eqb c cmd then next_read rest else response_to cmd rest
  | _ :: rest => response_to cmd rest
  end.

(** A trace in which every write goes over a connection that was opened
    for it: between an open and the next one there is at most one write. *)
Fixpoint fresh_connections (fresh : bool) (t : list event) : bool :=
  match t with
  | [] => true
  | EvOpen _ :: rest => fresh_connections true rest
  | EvWrite _ :: rest => fresh && fresh_connections false rest
  | _ :: rest => fresh_connections fresh rest
  end.

(** What one collection cycle observes, per table entry: the timestamp
    taken and the bytes read. *)
Definition cycle_rows (obs : list (Z * list byte)) : list reading :=
  map (fun p => mkReading (fst (snd p)) (fst (fst p))
                          (unit_label (snd (fst p)))
                          (decode (snd (fst p)) (snd (snd p))))
      (combine communication_specs obs).

Definition cycle_events (obs : list (Z * list byte)) : list event :=
  EvOpen kth_settings
  :: flat_map (fun p => [EvWrite (command (snd (fst p))); EvFlush;
                         EvRead (nr_of_bytes (snd (fst p))) (snd (snd p))])
              (combine communication_specs obs)
  ++ [EvClose].

(** The events of the handshake, given the four answers; the last two
    probes are sent only when the device ID is the expected one. *)
Definition handshake_events (d0 d1 d2 d3 : list byte) : list event :=
  [EvOpen kth_settings;
   EvWrite [x00]; EvFlush; EvRead 100 d0; EvPrint [PBytes d0];
   EvWrite [x01]; EvFlush; EvRead 100 d1;
   EvPrint [PStr "Device ID: "; PBytes d1]]
  ++ (if bytes_eqb d1 [x0d; xee]
      then [EvWrite [x02]; EvFlush; EvRead 100 d2;
            EvPrint [PStr "Unique ID: "; PBytes d2];
            EvWrite [x03]; EvFlush; EvRead 100 d3;
            EvPrint [PStr "Firmware version: "; PBytes d3]]
      else [])
  ++ [EvClose].

Definition is_print (e : event) : bool :=
  match e with
  | EvPrint _ => true
  | _ => false
  end.

(** Line 125, [df[df.unit == 'T']]: the rows whose unit is 'T', under their
    labels and in their order. *)
Definition temperature_rows (df : dataframe) : dataframe :=
  filter (fun p => String.eqb (row_unit (snd p)) "T") df.

(** The state a trace leaves the port in ([true]: open), started from
    [opened]; [None] when the trace opens an open port, closes a closed one,
    or writes to, flushes or reads from a closed one. *)
Fixpoint port_state (opened : bool) (t : list event) : option bool :=
  match t with
  | [] => Some opened
  | EvOpen _ :: rest => if opened then None else port_state true rest
  | EvClose :: rest => if opened then port_state false rest else None
  | EvPrint _ :: rest => port_state opened rest
  | EvWrite _ :: rest | EvFlush :: rest | EvRead _ _ :: rest =>
      if opened then port_state true rest else None
  end.

(** The frames the script builds carry strictly increasing labels; on such
    a frame [index.max()] is the last label and [index.min()] the first. *)
Fixpoint increasing (ls : list Z) : Prop :=
  match ls with
  | [] => True
  | a :: tl => Forall (Z.lt a) tl /\ increasing tl
  end.

Section Observing.

Context {Line Clock : Type} `{SerialPort Line} `{WallClock Clock}.

Abbreviation World := (world Line Clock).

(** The events a computation adds to the trace. *)
Definition events_of {A} (m : M A) (w : World) : list event :=
  skipn (length (w_trace w)) (w_trace (snd (m w))).

(** [m], started in [w], ends with result [r], having added the events
    [evs] to the trace and left the CSV file as [file]. *)
Definition yields {A} (m : M A) (w : World) (r : result A)
           (evs : list event) (file : option (list csv_line)) : Prop :=
  fst (m w) = r
  /\ w_trace (snd (m w)) = w_trace w ++ evs
  /\ w_csv (snd (m w)) = file.

End Observing.

Section Clocks.

Context {Clock : Type} `{WallClock Clock}.

(** [n] readings of the clock, one after the other, and the clock after
    them. *)
Fixpoint clock_readings (n : nat) (c : Clock) : list Z * Clock :=
  match n with
  | O => ([], c)
  | S k =>
      let r := clock_today c in
      let rest := clock_readings k (snd r) in
      (fst r :: fst rest, snd rest)
  end.

End Clocks.

(** The value of a computation that ended normally. *)
Definition ok_or {A} (default : A) (r : result A) : A :=
  match r with
  | Ok a => a
  | Raise _ => default
  end.

(** The buffer after a run of frames: each frame merges the batch of one
    collection cycle into it. *)
Inductive evolves (limit : Z)
  : dataframe -> list (list (Z * list byte)) -> dataframe -> Prop :=
| evolves_nil df : evolves limit df [] df
| evolves_cons df obs obss df1 df' :
    length obs = 5%nat ->
    ingest limit df (frame_of (cycle_rows obs)) = Ok df1 ->
    evolves limit df1 obss df' ->
    evolves limit df (obs :: obss) df'.

(* ================================================================= *)
(** ** Little-endian integers *)

Module LittleEndian.

Lemma byte_val_range (b : byte) : 0 <= byte_val b < 256.
Proof.
  unfold byte_val. pose proof (Byte.to_N_bounded b). lia.
Qed.

Lemma byte_val_of_Z (z : Z) : byte_val (byte_of_Z z) = z mod 256.
Proof.
  unfold byte_val, byte_of_Z.
  assert (R : 0 <= z mod 256 < 256) by (apply Z.mod_pos_bound; lia).
  destruct (Byte.of_N (Z.to_N (z mod 256))) as [b|] eqn:E.
  - apply Byte.to_of_N in E. rewrite E. lia.
  - exfalso.
    pose proof (Byte.to_of_N_option_map (Z.to_N (z mod 256))) as P.
    rewrite E in P. cbn in P.
    destruct (N.leb_spec (Z.to_N (z mod 256)) 255); [discriminate | lia].
Qed.

Lemma pow256 (n : nat) : 2 ^ (8 * Z.of_nat (S n)) = 256 * 2 ^ (8 * Z.of_nat n).
Proof.
  replace (8 * Z.of_nat (S n)) with (8 + 8 * Z.of_nat n) by lia.
  rewrite Z.pow_add_r by lia. reflexivity.
Qed.

Lemma pow256_pos (n : nat) : 0 < 2 ^ (8 * Z.of_nat n).
Proof. apply Z.pow_pos_nonneg; lia. Qed.

Lemma le_unsigned_range (bs : list byte) :
  0 <= le_unsigned bs < 2 ^ (8 * Z.of_nat (length bs)).
Proof.
  induction bs as [|b tl IH].
  - cbn. lia.
  - cbn [le_unsigned length]. rewrite pow256.
    pose proof (byte_val_range b). lia.
Qed.

Lemma length_le_bytes (w : nat) (u : Z) : length (le_bytes w u) = w.
Proof.
  revert u. induction w as [|w IH]; intros u; cbn; [reflexivity|].
  now rewrite IH.
Qed.

Lemma le_unsigned_le_bytes (w : nat) (u : Z) :
  le_unsigned (le_bytes w u) = u mod 2 ^ (8 * Z.of_nat w).
Proof.
  revert u. induction w as [|w IH]; intros u.
  - cbn. now rewrite Z.mod_1_r.
  - cbn [le_bytes le_unsigned]. rewrite byte_val_of_Z, IH, pow256.
    rewrite Z.rem_mul_r by (pose proof (pow256_pos w); lia). reflexivity.
Qed.

(** The top bit of the last byte is set exactly when the magnitude
    reaches half the range. *)
Lemma sign_bit_half (bs : list byte) :
  bs <> [] ->
  sign_bit bs = (2 ^ (8 * Z.of_nat (length bs)) <=? 2 * le_unsigned bs).
Proof.
  induction bs as [|b tl IH]; [congruence|intros _].
  destruct tl as [|c tl].
  - unfold sign_bit. cbn [last length le_unsigned].
    change (2 ^ (8 * Z.of_nat 1)) with 256.
    pose proof (byte_val_range b).
    destruct (Z.leb_spec 128 (byte_val b)),
             (Z.leb_spec 256 (2 * (byte_val b + 256 * 0)));
      try reflexivity; lia.
  - assert (N : c :: tl <> []) by congruence.
    specialize (IH N).
    change (sign_bit (b :: c :: tl)) with (sign_bit (c :: tl)).
    rewrite IH.
    change (length (b :: c :: tl)) with (S (length (c :: tl))).
    rewrite pow256. cbn [le_unsigned].
    pose proof (byte_val_range b).
    set (u := byte_val c + 256 * le_unsigned tl).
    assert (E : 2 ^ (8 * Z.of_nat (length (c :: tl)))
                = 2 * (128 * 2 ^ (8 * Z.of_nat (length tl)))).
    { change (length (c :: tl)) with (S (length tl)). rewrite pow256. lia. }
    rewrite E.
    set (p := 2 * (128 * 2 ^ (8 * Z.of_nat (length tl)))).
    destruct (Z.leb_spec p (2 * u)), (Z.leb_spec (256 * p) (2 * (byte_val b + 256 * u)));
      try reflexivity; lia.
Qed.

Lemma positional_value_eq (bs : list byte) :
  positional_value bs = le_unsigned bs.
Proof.
  unfold positional_value.
  induction bs as [|b tl IH].
  - reflexivity.
  - cbn [length seq map fold_right nth le_unsigned].
    rewrite <- seq_shift, map_map.
    change (256 ^ Z.of_nat 0) with 1.
    rewrite <- IH, Z.mul_1_r. f_equal.
    clear IH. induction (seq 0 (length tl)) as [|i l IHl]; cbn [map fold_right].
    + lia.
    + rewrite IHl. cbn [nth].
      rewrite Nat2Z.inj_succ, Z.pow_succ_r by lia. lia.
Qed.

Lemma testbit_top (u : Z) (n : nat) :
  (0 < n)%nat -> 0 <= u < 2 ^ (8 * Z.of_nat n) ->
  Z.testbit u (8 * Z.of_nat n - 1) = (2 ^ (8 * Z.of_nat n) <=? 2 * u).
Proof.
  intros Hn Hu.
  set (k := 8 * Z.of_nat n - 1).
  assert (Hk : 0 <= k) by lia.
  assert (E : 2 ^ (8 * Z.of_nat n) = 2 * 2 ^ k).
  { replace (8 * Z.of_nat n) with (Z.succ k) by lia.
    now rewrite Z.pow_succ_r. }
  rewrite E in *.
  assert (P : 0 < 2 ^ k) by (apply Z.pow_pos_nonneg; lia).
  rewrite Z.testbit_eqb by lia.
  destruct (Z.leb_spec (2 * 2 ^ k) (2 * u)).
  - assert (D : u / 2 ^ k = 1)
      by (symmetry; apply Z.div_unique with (r := u - 2 ^ k); lia).
    rewrite D. reflexivity.
  - rewrite Z.div_small by lia. reflexivity.
Qed.

(** [int_from_bytes] is the two's-complement reading of the positional
    value. *)
Lemma int_from_bytes_twos_complement (bs : list byte) (sg : bool) :
  int_from_bytes bs sg = twos_complement_value bs sg.
Proof.
  unfold int_from_bytes, twos_complement_value.
  rewrite positional_value_eq.
  destruct bs as [|b tl].
  - destruct sg; reflexivity.
  - rewrite testbit_top.
    + rewrite sign_bit_half by congruence. reflexivity.
    + cbn. lia.
    + apply le_unsigned_range.
Qed.

(** Decoding undoes encoding, for every width and either signedness. *)
Lemma int_from_bytes_to_bytes (v : Z) (w : nat) (sg : bool) (bs : list byte) :
  int_to_bytes v w sg = Some bs ->
  length bs = w /\ int_from_bytes bs sg = v.
Proof.
  unfold int_to_bytes, int_from_bytes.
  pose proof (pow256_pos w) as P.
  set (m := 2 ^ (8 * Z.of_nat w)) in *.
  destruct sg.
  - destruct (Z.leb_spec (- m) (2 * v)), (Z.ltb_spec (2 * v) m);
      cbn [andb]; try discriminate.
    intros [= <-]. split; [apply length_le_bytes|].
    rewrite length_le_bytes, le_unsigned_le_bytes. fold m.
    rewrite Z.mod_mod by lia.
    destruct w as [|w].
    + cbn in m. subst m. cbn. rewrite Z.mod_1_r. lia.
    + rewrite sign_bit_half, length_le_bytes, le_unsigned_le_bytes.
      2:{ cbn. congruence. }
      fold m. rewrite Z.mod_mod by lia. cbn [andb].
      destruct (Z.ltb_spec v 0).
      * assert (E : v mod m = v + m).
        { symmetry. apply Z.mod_unique with (q := -1); lia. }
        rewrite E. destruct (Z.leb_spec m (2 * (v + m))); lia.
      * rewrite Z.mod_small by lia.
        destruct (Z.leb_spec m (2 * v)); lia.
  - destruct (Z.leb_spec 0 v), (Z.ltb_spec v m); cbn [andb]; try discriminate.
    intros [= <-]. split; [apply length_le_bytes|].
    cbn [andb]. rewrite le_unsigned_le_bytes. fold m.
    apply Z.mod_small. lia.
Qed.

Lemma int_from_bytes_unsigned_nonneg (bs : list byte) :
  0 <= int_from_bytes bs false.
Proof. unfold int_from_bytes. cbn [andb]. apply le_unsigned_range. Qed.

End LittleEndian.

(* ================================================================= *)
(** ** DataFrames with increasing labels *)

Module Frame.

Lemma length_index (df : dataframe) : length (index df) = length df.
Proof. apply length_map. Qed.

Lemma length_rows (df : dataframe) : length (rows df) = length df.
Proof. apply length_map. Qed.

Lemma rows_app (a b : dataframe) : rows (a ++ b) = rows a ++ rows b.
Proof. apply map_app. Qed.

Lemma index_app (a b : dataframe) : index (a ++ b) = index a ++ index b.
Proof. apply map_app. Qed.

Lemma rows_skipn (n : nat) (df : dataframe) :
  rows (skipn n df) = skipn n (rows df).
Proof. unfold rows. symmetry. apply skipn_map. Qed.

Lemma fold_max_ge (ls : list Z) (a : Z) :
  a <= fold_left Z.max ls a /\ Forall (fun l => l <= fold_left Z.max ls a) ls.
Proof.
  revert a. induction ls as [|x ls IH]; intros a; cbn [fold_left].
  - split; [lia | constructor].
  - destruct (IH (Z.max a x)) as [G F]. split; [lia|].
    constructor; [lia | exact F].
Qed.

Lemma fold_min_first (ls : list Z) (a : Z) :
  Forall (Z.lt a) ls -> fold_left Z.min ls a = a.
Proof.
  induction 1 as [|x ls L F IH]; cbn [fold_left]; [reflexivity|].
  rewrite Z.min_l by lia. exact IH.
Qed.

Lemma index_max_none (df : dataframe) : index_max df = None <-> df = [].
Proof.
  unfold index_max, index. destruct df as [|p df]; cbn [map].
  - split; reflexivity.
  - split; discriminate.
Qed.

Lemma index_max_bound (df : dataframe) (m : Z) :
  index_max df = Some m -> Forall (fun l => l <= m) (index df).
Proof.
  unfold index_max. destruct (index df) as [|l ls]; [discriminate|].
  intros [= <-]. destruct (fold_max_ge ls l) as [G F].
  constructor; assumption.
Qed.

Lemma index_max_in (df : dataframe) (m : Z) :
  index_max df = Some m -> In m (index df).
Proof.
  unfold index_max. destruct (index df) as [|l ls]; [discriminate|].
  intros [= <-]. revert l. induction ls as [|x ls IH]; intros l; cbn [fold_left].
  - now left.
  - destruct (IH (Z.max l x)) as [E|I].
    + destruct (Z.max_spec l x) as [[_ M]|[_ M]]; rewrite M in *.
      * right. left. exact E.
      * left. exact E.
    + right. right. exact I.
Qed.

Lemma has_label_above (df : dataframe) (m : Z) :
  Forall (fun l => l <= m) (index df) -> has_label (m + 1) df = false.
Proof.
  unfold has_label. induction 1 as [|l ls L F IH]; cbn [existsb]; [reflexivity|].
  rewrite IH. destruct (Z.eqb_spec (m + 1) l); [lia | reflexivity].
Qed.

(** Line 117 on a frame that has rows: the new row goes to the end, under
    the label one past the largest. *)
Lemma loc_next_appends (df : dataframe) (row : reading) (m : Z) :
  index_max df = Some m -> loc_next df row = Ok (df ++ [(m + 1, row)]).
Proof.
  intros E. unfold loc_next, loc_set. rewrite E.
  now rewrite (has_label_above df m (index_max_bound df m E)).
Qed.

Lemma increasing_snoc (ls : list Z) (x : Z) :
  increasing ls -> Forall (fun l => l < x) ls -> increasing (ls ++ [x]).
Proof.
  induction ls as [|a ls IH]; cbn [increasing app]; intros I F.
  - split; [constructor | exact I].
  - destruct I as [A I]. inversion F as [|? ? Lx Fx]; subst. split.
    + apply Forall_app. split; [exact A | constructor; [exact Lx | constructor]].
    + apply IH; assumption.
Qed.

Lemma loc_next_ok (df : dataframe) (row : reading) :
  df <> [] ->
  exists m, loc_next df row = Ok (df ++ [(m + 1, row)])
            /\ (increasing (index df) -> increasing (index (df ++ [(m + 1, row)]))).
Proof.
  intros N. destruct (index_max df) as [m|] eqn:E.
  - exists m. split; [now apply loc_next_appends|].
    intros I. rewrite index_app. apply increasing_snoc; [exact I|].
    eapply Forall_impl; [|apply (index_max_bound df m E)].
    cbn. intros; lia.
  - apply index_max_none in E. contradiction.
Qed.

(** Lines 116-117: on a frame that has rows the loop adds the batch's rows
    at the end, in the batch's order. *)
Lemma append_rows_ok (batch df : dataframe) :
  df <> [] ->
  exists tail,
    append_rows batch df = Ok (df ++ tail)
    /\ rows tail = rows batch
    /\ (increasing (index df) -> increasing (index (df ++ tail))).
Proof.
  revert df. induction batch as [|[l row] batch IH]; intros df N.
  - exists []. rewrite app_nil_r. cbn. auto.
  - cbn [append_rows]. destruct (loc_next_ok df row N) as (m & E & I).
    rewrite E. cbn [rbind].
    destruct (IH (df ++ [(m + 1, row)])) as (tail & E' & R & I').
    { destruct df; discriminate. }
    exists ((m + 1, row) :: tail). rewrite <- app_assoc in E', I'. cbn [app] in E', I'.
    split; [exact E'|]. split.
    + cbn [rows map]. f_equal. exact R.
    + intros H. apply I', I, H.
Qed.

Lemma drop_first (l : Z) (r : reading) (df : dataframe) :
  increasing (index ((l, r) :: df)) -> drop_oldest ((l, r) :: df) = Ok df.
Proof.
  cbn [index map increasing fst]. intros [F I].
  unfold drop_oldest, index_min. cbn [index map fst].
  rewrite (fold_min_first _ _ F). unfold drop, has_label. cbn [index map fst existsb].
  rewrite Z.eqb_refl. cbn [orb filter fst]. rewrite Z.eqb_refl. cbn [negb].
  assert (K : filter (fun p : Z * reading => negb (fst p =? l)) df = df).
  { clear I. induction df as [|[l' r'] df IH]; [reflexivity|].
    cbn [map fst] in F. inversion F as [|? ? L F']; subst.
    cbn [filter fst]. destruct (Z.eqb_spec l' l); [lia|]. cbn [negb].
    f_equal. apply IH. exact F'. }
  now rewrite K.
Qed.

(** Lines 121-122: on increasing labels, [n] drops of the smallest label
    remove the first [n] rows and nothing else. *)
Lemma drop_oldest_n_ok (n : nat) (df : dataframe) :
  increasing (index df) -> (n <= length df)%nat ->
  drop_oldest_n n df = Ok (skipn n df).
Proof.
  revert df. induction n as [|n IH]; intros df I L; [reflexivity|].
  destruct df as [|[l r] df]; [cbn in L; lia|].
  cbn [drop_oldest_n]. rewrite (drop_first l r df I). cbn [rbind skipn].
  apply IH; [apply I | cbn in L; lia].
Qed.

Lemma increasing_skipn (n : nat) (ls : list Z) :
  increasing ls -> increasing (skipn n ls).
Proof.
  revert ls. induction n as [|n IH]; intros ls I; [exact I|].
  destruct ls as [|a ls]; [exact I|]. cbn [skipn]. apply IH, I.
Qed.

Lemma index_skipn (n : nat) (df : dataframe) :
  index (skipn n df) = skipn n (index df).
Proof. unfold index. symmetry. apply skipn_map. Qed.

(** What lines 115-122 do to a frame that has rows and increasing
    labels. *)
Lemma ingest_ok (limit : Z) (df batch : dataframe) :
  df <> [] -> increasing (index df) ->
  exists df',
    ingest limit df batch = Ok df'
    /\ rows df' =
         (if limit <? Z.of_nat (length df + length batch)
          then skipn (length batch) (rows df ++ rows batch)
          else rows df ++ rows batch)
    /\ length df' =
         (if limit <? Z.of_nat (length df + length batch)
          then length df else (length df + length batch)%nat)
    /\ increasing (index df').
Proof.
  intros N I. unfold ingest.
  destruct (append_rows_ok batch df N) as (tail & E & R & I').
  specialize (I' I). rewrite E. cbn [rbind].
  assert (Lt : length tail = length batch).
  { rewrite <- (length_rows tail), R. apply length_rows. }
  rewrite length_app, Lt.
  destruct (limit <? Z.of_nat (length df + length batch)).
  - rewrite drop_oldest_n_ok; [|exact I'|rewrite length_app; lia].
    eexists. split; [reflexivity|]. split; [|split].
    + rewrite rows_skipn, rows_app, R. reflexivity.
    + rewrite length_skipn, length_app. lia.
    + rewrite index_skipn. apply increasing_skipn, I'.
  - eexists. split; [reflexivity|]. split; [|split].
    + rewrite rows_app, R. reflexivity.
    + rewrite length_app. lia.
    + exact I'.
Qed.

(** [pd.concat(..., ignore_index=True)] labels its rows 0, 1, 2, ... *)
Lemma increasing_seq (a n : nat) : increasing (map Z.of_nat (seq a n)).
Proof.
  revert a. induction n as [|n IH]; intros a; cbn [seq map increasing]; [exact I|].
  split; [|apply IH].
  apply Forall_forall. intros x Hx. apply in_map_iff in Hx.
  destruct Hx as (k & <- & Hk). apply in_seq in Hk. lia.
Qed.

Lemma index_frame_of (rs : list reading) :
  index (frame_of rs) = map Z.of_nat (seq 0 (length rs)).
Proof.
  unfold frame_of, index.
  assert (L : length (map Z.of_nat (seq 0 (length rs))) = length rs)
    by now rewrite length_map, length_seq.
  revert L. generalize (map Z.of_nat (seq 0 (length rs))).
  induction rs as [|r rs IH]; intros [|l ls] L; cbn in *;
    try reflexivity; try lia.
  f_equal. apply IH. lia.
Qed.

Lemma rows_frame_of (rs : list reading) : rows (frame_of rs) = rs.
Proof.
  unfold frame_of, rows.
  assert (L : length (map Z.of_nat (seq 0 (length rs))) = length rs)
    by now rewrite length_map, length_seq.
  revert L. generalize (map Z.of_nat (seq 0 (length rs))).
  induction rs as [|r rs IH]; intros [|l ls] L; cbn in *;
    try reflexivity; try lia.
  f_equal. apply IH. lia.
Qed.

Lemma length_frame_of (rs : list reading) : length (frame_of rs) = length rs.
Proof. now rewrite <- length_rows, rows_frame_of. Qed.

Lemma increasing_frame_of (rs : list reading) :
  increasing (index (frame_of rs)).
Proof. rewrite index_frame_of. apply increasing_seq. Qed.

End Frame.

(* ================================================================= *)
(** ** The buffer across frames *)

Module Buffer.

Lemma length_cycle_rows (obs : list (Z * list byte)) :
  length obs = 5%nat -> length (cycle_rows obs) = 5%nat.
Proof.
  intros L. unfold cycle_rows. rewrite length_map, length_combine, L.
  reflexivity.
Qed.

Lemma length_batch (obs : list (Z * list byte)) :
  length obs = 5%nat -> length (frame_of (cycle_rows obs)) = 5%nat.
Proof.
  intros L. now rewrite Frame.length_frame_of, length_cycle_rows.
Qed.

Lemma batch_nonempty (obs : list (Z * list byte)) :
  length obs = 5%nat -> frame_of (cycle_rows obs) <> [].
Proof.
  intros L E. apply length_batch in L. rewrite E in L. discriminate.
Qed.

Lemma in_skipn {A} (n : nat) (l : list A) (x : A) :
  In x (skipn n l) -> In x l.
Proof.
  intros I. rewrite <- (firstn_skipn n l). apply in_or_app. now right.
Qed.

(** One frame keeps the buffer non-empty and increasing, never shortens
    it, keeps it within a cap of at least one batch, and puts nothing into
    it but the new batch. *)
Lemma ingest_step (limit : Z) (df batch df' : dataframe) :
  df <> [] -> increasing (index df) ->
  ingest limit df batch = Ok df' ->
  df' <> [] /\ increasing (index df')
  /\ (length df <= length df')%nat
  /\ (Z.of_nat (length df) <= limit -> Z.of_nat (length df') <= limit)
  /\ (forall r, In r (rows df') -> In r (rows df) \/ In r (rows batch)).
Proof.
  intros N I E.
  destruct (Frame.ingest_ok limit df batch N I) as (df1 & E1 & R & L & I1).
  rewrite E in E1. injection E1 as <-.
  assert (P : (0 < length df)%nat) by (destruct df; [congruence | cbn; lia]).
  destruct (Z.ltb_spec limit (Z.of_nat (length df + length batch))).
  - repeat split.
    + intros ->. cbn in L. lia.
    + exact I1.
    + lia.
    + lia.
    + intros r Hr. rewrite R in Hr. apply in_skipn in Hr.
      apply in_app_or in Hr. exact Hr.
  - repeat split.
    + intros ->. cbn in L. lia.
    + exact I1.
    + lia.
    + lia.
    + intros r Hr. rewrite R in Hr. apply in_app_or in Hr. exact Hr.
Qed.

Lemma evolves_invariant (limit : Z) df obss df' :
  evolves limit df obss df' ->
  df <> [] -> increasing (index df) ->
  df' <> [] /\ increasing (index df')
  /\ (length df <= length df')%nat
  /\ (Z.of_nat (length df) <= limit -> Z.of_nat (length df') <= limit)
  /\ (forall r, In r (rows df') ->
                In r (rows df) \/ In r (flat_map cycle_rows obss)).
Proof.
  induction 1 as [df | df obs obss df1 df' L E Ev IH]; intros N I.
  - repeat split; auto.
  - destruct (ingest_step limit df _ df1 N I E) as (N1 & I1 & L1 & B1 & R1).
    destruct (IH N1 I1) as (N' & I' & L' & B' & R').
    repeat split; auto; [lia|].
    intros r Hr. cbn [flat_map]. rewrite in_app_iff.
    destruct (R' r Hr) as [K|K]; [|tauto].
    destruct (R1 r K) as [K1|K1]; [tauto|].
    rewrite Frame.rows_frame_of in K1. tauto.
Qed.

Lemma evolves_rows_length (limit : Z) df obss df' :
  evolves limit df obss df' ->
  length (flat_map cycle_rows obss) = (5 * length obss)%nat.
Proof.
  induction 1 as [df | df obs obss df1 df' L E Ev IH]; [reflexivity|].
  cbn [flat_map length]. rewrite length_app, (length_cycle_rows obs L), IH.
  lia.
Qed.

End Buffer.

Section Runs.

Context {Line Clock : Type} `{SerialPort Line} `{WallClock Clock}.

Abbreviation World := (world Line Clock).

Lemma yields_events {A} (m : M A) (w : World) r evs file :
  yields m w r evs file -> events_of m w = evs.
Proof.
  intros (_ & T & _). unfold events_of. rewrite T.
  rewrite skipn_app, skipn_all, Nat.sub_diag. reflexivity.
Qed.

Lemma yields_bind {A B} (m : M A) (k : A -> M B) (w : World) a e1 f1 r e2 f2 :
  yields m w (Ok a) e1 f1 ->
  yields (k a) (snd (m w)) r e2 f2 ->
  yields (bind m k) w r (e1 ++ e2) f2.
Proof.
  intros (R1 & T1 & _) (R2 & T2 & F2). unfold yields, bind.
  rewrite R1. repeat split; [exact R2 | | exact F2].
  rewrite T2, T1. symmetry. apply app_assoc.
Qed.

Lemma yields_raise {A B} (m : M A) (k : A -> M B) (w : World) e e1 f1 :
  yields m w (Raise e) e1 f1 ->
  yields (bind m k) w (Raise e) e1 f1.
Proof.
  intros (R1 & T1 & F1). unfold yields, bind.
  rewrite R1. cbn [fst snd]. auto.
Qed.

(** Sequencing, when the continuation's effect on the file is a function
    [g] of the file it starts from. *)
Lemma yields_seq {A B} (m : M A) (k : A -> M B) (w : World) a e1 f1 r e2
      (g : option (list csv_line) -> option (list csv_line)) :
  yields m w (Ok a) e1 f1 ->
  (forall w', yields (k a) w' r e2 (g (w_csv w'))) ->
  yields (bind m k) w r (e1 ++ e2) (g f1).
Proof.
  intros Y K. eapply yields_bind; [exact Y|].
  destruct Y as (_ & _ & <-). apply K.
Qed.

Lemma yields_ret {A} (a : A) (w : World) :
  yields (ret a) w (Ok a) [] (w_csv w).
Proof. unfold yields, ret. cbn. now rewrite app_nil_r. Qed.

Lemma lift_yields {A} (r : result A) (w : World) :
  yields (lift r) w r [] (w_csv w).
Proof. unfold yields, lift. cbn. now rewrite app_nil_r. Qed.

Lemma snd_bind_lift {A B} (m : M A) (k : A -> result B) (w : World) :
  snd (bind m (fun a => lift (k a)) w) = snd (m w).
Proof. unfold bind, lift. destruct (fst (m w)); reflexivity. Qed.

Lemma save_yields (save : bool) (df : dataframe) (w : World) :
  yields (bind (if save then to_csv_append df else ret tt)
               (fun _ => ret df)) w (Ok df) []
         (if save
          then Some (csv_lines (w_csv w) ++ map CsvRecord (rows df))
          else w_csv w).
Proof.
  destruct save; unfold yields, bind, to_csv_append, ret;
    cbn; now rewrite app_nil_r.
Qed.

(** *** The handshake *)

Lemma handshake_yields (w : World) :
  exists d0 d1 d2 d3,
    yields check_connection w
           (if bytes_eqb d1 [x0d; xee] then Ok tt else Raise AssertionError)
           (handshake_events d0 d1 d2 d3) (w_csv w).
Proof.
  set (r0 := port_read 100 (port_flush (port_write [x00]
               (port_open kth_settings (w_line w))))).
  set (r1 := port_read 100 (port_flush (port_write [x01] (snd r0)))).
  set (r2 := port_read 100 (port_flush (port_write [x02] (snd r1)))).
  set (r3 := port_read 100 (port_flush (port_write [x03] (snd r2)))).
  exists (fst r0), (fst r1), (fst r2), (fst r3).
  unfold yields, check_connection, with_serial, handshake_events.
  cbn -[bytes_eqb]. fold r0. fold r1.
  destruct (bytes_eqb (fst r1) [x0d; xee]) eqn:E.
  - cbn -[bytes_eqb]. unfold ret, emit. cbn -[bytes_eqb]. fold r2. fold r3.
    rewrite <- !app_assoc. cbn [app]. auto.
  - cbn -[bytes_eqb]. unfold emit. cbn -[bytes_eqb].
    rewrite <- !app_assoc. cbn [app]. auto.
Qed.

(** *** One collection cycle *)

Lemma poll_run (w : World) :
  exists obs l' c',
    length obs = 5%nat
    /\ with_serial kth_settings
         (for_each communication_specs read_sensor empty_frame) w
       = (Ok (frame_of (cycle_rows obs)),
          mkWorld l' c' (w_csv w) (w_trace w ++ cycle_events obs)).
Proof.
  refine (ex_intro _ [(_, _); (_, _); (_, _); (_, _); (_, _)] _).
  do 2 eexists. split; [reflexivity|].
  unfold with_serial.
  cbn -[decode concat_ignore_index frame_of cycle_rows cycle_events].
  unfold ret, emit.
  cbn -[decode concat_ignore_index frame_of cycle_rows cycle_events].
  rewrite <- !app_assoc.
  unfold concat_ignore_index. rewrite !Frame.rows_frame_of.
  cbn -[decode frame_of].
  reflexivity.
Qed.

Lemma poll_yields (w : World) :
  exists obs,
    length obs = 5%nat
    /\ yields (with_serial kth_settings
                 (for_each communication_specs read_sensor empty_frame)) w
              (Ok (frame_of (cycle_rows obs))) (cycle_events obs) (w_csv w).
Proof.
  destruct (poll_run w) as (obs & l' & c' & L & E).
  exists obs. split; [exact L|].
  unfold yields. rewrite E. cbn [fst snd w_trace w_csv]. auto.
Qed.

Lemma collect_yields (save : bool) (w : World) :
  exists obs,
    length obs = 5%nat
    /\ yields (get_new_sensor_values save) w
              (Ok (frame_of (cycle_rows obs))) (cycle_events obs)
              (if save
               then Some (csv_lines (w_csv w) ++ map CsvRecord (cycle_rows obs))
               else w_csv w).
Proof.
  destruct (poll_yields w) as (obs & L & Y).
  exists obs. split; [exact L|].
  unfold get_new_sensor_values.
  rewrite <- (app_nil_r (cycle_events obs)).
  rewrite <- (Frame.rows_frame_of (cycle_rows obs)) at 2.
  apply (yields_seq _ _ w (frame_of (cycle_rows obs)) (cycle_events obs)
           (w_csv w) (Ok (frame_of (cycle_rows obs))) []
           (fun f => if save
                     then Some (csv_lines f
                                ++ map CsvRecord (rows (frame_of (cycle_rows obs))))
                     else f)).
  - exact Y.
  - intros w'. apply save_yields.
Qed.

(** *** Startup *)

Lemma prints_yields (ps : list string) (w : World) :
  yields (for_each ps (fun _ p => print [PStr p]) tt) w (Ok tt)
         (map (fun p => EvPrint [PStr p]) ps) (w_csv w).
Proof.
  revert w. induction ps as [|p ps IH]; intros w.
  - apply yields_ret.
  - cbn [for_each map].
    change (EvPrint [PStr p] :: map (fun p => EvPrint [PStr p]) ps)
      with ([EvPrint [PStr p]] ++ map (fun p => EvPrint [PStr p]) ps).
    apply (yields_seq _ _ w tt [EvPrint [PStr p]] (w_csv w) (Ok tt) _
             (fun f => f)).
    + unfold yields, print, emit; cbn; repeat split; reflexivity.
    + intros w'. apply IH.
Qed.

Lemma list_ports_yields (w : World) :
  exists prints,
    forallb is_print prints = true
    /\ yields list_ports w (Ok tt) prints (w_csv w).
Proof.
  exists ([EvPrint [PStr (String (ascii_of_nat 10) "USB PORTS: ")]]
          ++ map (fun p => EvPrint [PStr p]) (comports (w_line w))
          ++ [EvPrint []]).
  split.
  - cbn [app forallb is_print andb]. rewrite forallb_app. cbn.
    rewrite andb_true_r. apply forallb_forall.
    intros e I. apply in_map_iff in I. destruct I as (p & <- & _). reflexivity.
  - change (yields
              (bind (print [PStr (String (ascii_of_nat 10) "USB PORTS: ")])
                 (fun _ =>
                    bind (for_each (comports (w_line w))
                                   (fun _ p => print [PStr p]) tt)
                         (fun _ => print [])))
              w (Ok tt)
              ([EvPrint [PStr (String (ascii_of_nat 10) "USB PORTS: ")]]
               ++ map (fun p => EvPrint [PStr p]) (comports (w_line w))
               ++ [EvPrint []])
              (w_csv w)).
    apply (yields_seq _ _ w tt _ (w_csv w) (Ok tt) _ (fun f => f)).
    + unfold yields, print, emit; cbn; repeat split; reflexivity.
    + intros w1.
      apply (yields_seq _ _ w1 tt _ (w_csv w1) (Ok tt) _ (fun f => f)).
      * apply prints_yields.
      * intros w2. unfold yields, print, emit; cbn; repeat split; reflexivity.
Qed.

Variable cfg : settings.

Lemma listing_yields (w : World) :
  exists prints,
    forallb is_print prints = true
    /\ yields (if list_all_windows_ports cfg then list_ports else ret tt)
              w (Ok tt) prints (w_csv w).
Proof.
  destruct (list_all_windows_ports cfg).
  - apply list_ports_yields.
  - exists []. split; [reflexivity | apply yields_ret].
Qed.

Lemma write_yields (df : dataframe) (w : World) :
  yields (bind (if save_to_csv cfg then to_csv_write df else ret tt)
               (fun _ => ret df)) w (Ok df) []
         (if save_to_csv cfg
          then Some (CsvHeader csv_columns :: map CsvRecord (rows df))
          else w_csv w).
Proof.
  destruct (save_to_csv cfg); unfold yields, bind, to_csv_write, ret;
    cbn; now rewrite app_nil_r.
Qed.

(** Startup either stops at the assertion, with only the first two probes
    sent, or ends with the first batch as the buffer. *)
Lemma startup_yields (w : World) :
  exists prints d0 d1 d2 d3,
    forallb is_print prints = true
    /\ ((bytes_eqb d1 [x0d; xee] = false
         /\ yields (startup cfg) w (Raise AssertionError)
                   (prints ++ handshake_events d0 d1 d2 d3) (w_csv w))
        \/ (bytes_eqb d1 [x0d; xee] = true
            /\ exists obs,
                length obs = 5%nat
                /\ yields (startup cfg) w (Ok (frame_of (cycle_rows obs)))
                          (prints ++ handshake_events d0 d1 d2 d3
                                  ++ cycle_events obs)
                          (if save_to_csv cfg
                           then Some (CsvHeader csv_columns
                                      :: map CsvRecord (cycle_rows obs))
                           else w_csv w))).
Proof.
  destruct (listing_yields w) as (prints & P & Y1).
  set (w1 := snd ((if list_all_windows_ports cfg then list_ports else ret tt) w)) in *.
  destruct (handshake_yields w1) as (d0 & d1 & d2 & d3 & Y2).
  assert (F1 : w_csv w1 = w_csv w) by apply Y1.
  exists prints, d0, d1, d2, d3. split; [exact P|].
  unfold startup.
  destruct (bytes_eqb d1 [x0d; xee]) eqn:E.
  - right. split; [reflexivity|].
    destruct (collect_yields false (snd (check_connection w1))) as (obs & L & Y3).
    exists obs. split; [exact L|].
    eapply yields_bind; [exact Y1|]. fold w1.
    eapply yields_bind; [exact Y2|].
    rewrite <- (app_nil_r (cycle_events obs)).
    rewrite <- (Frame.rows_frame_of (cycle_rows obs)) at 2.
    apply (yields_seq _ _ _ (frame_of (cycle_rows obs)) (cycle_events obs)
             (w_csv w) (Ok (frame_of (cycle_rows obs))) []
             (fun f => if save_to_csv cfg
                       then Some (CsvHeader csv_columns
                                  :: map CsvRecord (rows (frame_of (cycle_rows obs))))
                       else f)).
    + destruct Y2 as (_ & _ & F2). rewrite F2, F1 in Y3. exact Y3.
    + intros w'. apply write_yields.
  - left. split; [reflexivity|].
    eapply yields_bind; [exact Y1|]. fold w1.
    rewrite <- F1. apply yields_raise. exact Y2.
Qed.

(** *** Frames *)

Lemma animation_update_yields (df : dataframe) (w : World) :
  df <> [] -> increasing (index df) ->
  exists obs df',
    length obs = 5%nat
    /\ ingest (max_length cfg) df (frame_of (cycle_rows obs)) = Ok df'
    /\ yields (animation_update cfg df) w (Ok df') (cycle_events obs)
              (if save_to_csv cfg
               then Some (csv_lines (w_csv w) ++ map CsvRecord (cycle_rows obs))
               else w_csv w).
Proof.
  intros N I.
  destruct (collect_yields (save_to_csv cfg) w) as (obs & L & Y).
  destruct (Frame.ingest_ok (max_length cfg) df (frame_of (cycle_rows obs)) N I)
    as (df' & E & _).
  exists obs, df'. split; [exact L|]. split; [exact E|].
  unfold animation_update.
  rewrite <- (app_nil_r (cycle_events obs)).
  apply (yields_seq _ _ w (frame_of (cycle_rows obs)) (cycle_events obs)
           _ (Ok df') [] (fun f => f)); [exact Y|].
  intros w'. cbn beta. rewrite E. apply lift_yields.
Qed.

Lemma yields_bind_file {A B} (m : M A) (k : A -> M B) (w : World) a e1 f1
      r e2
      (g : option (list csv_line) -> option (list csv_line)) :
  yields m w (Ok a) e1 f1 ->
  yields (k a) (snd (m w)) r e2 (g (w_csv (snd (m w)))) ->
  yields (bind m k) w r (e1 ++ e2) (g f1).
Proof.
  intros Y K. destruct Y as (R & T & F). rewrite <- F.
  eapply yields_bind; [|exact K]. repeat split; eauto.
Qed.

(** Any number of frames on a buffer with rows: every frame collects a
    batch, appends it to the file when saving is on, and merges it. *)
Lemma animate_yields (frames : nat) (df : dataframe) (w : World) :
  df <> [] -> increasing (index df) ->
  (save_to_csv cfg = true -> w_csv w <> None) ->
  exists obss df',
    length obss = frames
    /\ evolves (max_length cfg) df obss df'
    /\ yields (animate cfg frames df) w (Ok df') (flat_map cycle_events obss)
              (if save_to_csv cfg
               then Some (csv_lines (w_csv w)
                          ++ map CsvRecord (flat_map cycle_rows obss))
               else w_csv w).
Proof.
  revert df w. induction frames as [|frames IH]; intros df w N I S.
  - exists [], df. split; [reflexivity|]. split; [constructor|].
    cbn [animate flat_map map]. rewrite app_nil_r.
    assert (E : (if save_to_csv cfg then Some (csv_lines (w_csv w)) else w_csv w)
                = w_csv w).
    { destruct (save_to_csv cfg); [|reflexivity].
      specialize (S eq_refl). destruct (w_csv w); [reflexivity | congruence]. }
    rewrite E. apply yields_ret.
  - destruct (animation_update_yields df w N I) as (obs & df1 & L & E & Y1).
    destruct (Buffer.ingest_step _ _ _ _ N I E) as (N1 & I1 & _).
    set (w1 := snd (animation_update cfg df w)) in *.
    assert (S1 : save_to_csv cfg = true -> w_csv w1 <> None).
    { intros Sv. destruct Y1 as (_ & _ & F). unfold w1. rewrite F, Sv.
      discriminate. }
    destruct (IH df1 w1 N1 I1 S1) as (obss & df' & Ls & Ev & Y2).
    exists (obs :: obss), df'. split; [cbn; now rewrite Ls|].
    split; [econstructor; eassumption|].
    cbn [animate flat_map].
    set (g := fun f : option (list csv_line) =>
                if save_to_csv cfg
                then Some (csv_lines f ++ map CsvRecord (flat_map cycle_rows obss))
                else f).
    assert (G : (if save_to_csv cfg
                 then Some (csv_lines (w_csv w)
                            ++ map CsvRecord (cycle_rows obs ++ flat_map cycle_rows obss))
                 else w_csv w)
                = g (if save_to_csv cfg
                     then Some (csv_lines (w_csv w) ++ map CsvRecord (cycle_rows obs))
                     else w_csv w)).
    { unfold g. destruct (save_to_csv cfg); [|reflexivity].
      cbn [csv_lines]. now rewrite map_app, app_assoc. }
    rewrite G.
    apply (yields_bind_file _ _ w df1 _ _ (Ok df') _ g); [exact Y1|].
    exact Y2.
Qed.

(** The whole program: it stops at the assertion, or runs its frames. *)
Lemma main_yields (frames : nat) (w : World) :
  exists prints d0 d1 d2 d3,
    forallb is_print prints = true
    /\ ((bytes_eqb d1 [x0d; xee] = false
         /\ yields (main cfg frames) w (Raise AssertionError)
                   (prints ++ handshake_events d0 d1 d2 d3) (w_csv w))
        \/ (bytes_eqb d1 [x0d; xee] = true
            /\ exists obs obss df',
                length obs = 5%nat
                /\ length obss = frames
                /\ evolves (max_length cfg) (frame_of (cycle_rows obs)) obss df'
                /\ yields (main cfg frames) w (Ok df')
                          (prints ++ handshake_events d0 d1 d2 d3
                                  ++ cycle_events obs
                                  ++ flat_map cycle_events obss)
                          (if save_to_csv cfg
                           then Some (CsvHeader csv_columns
                                      :: map CsvRecord
                                           (cycle_rows obs
                                            ++ flat_map cycle_rows obss))
                           else w_csv w))).
Proof.
  destruct (startup_yields w) as (prints & d0 & d1 & d2 & d3 & P & [[E Y]|[E Y]]).
  - exists prints, d0, d1, d2, d3. split; [exact P|]. left.
    split; [exact E|]. unfold main. apply yields_raise. exact Y.
  - destruct Y as (obs & L & Y).
    exists prints, d0, d1, d2, d3. split; [exact P|]. right.
    split; [exact E|].
    set (w1 := snd (startup cfg w)) in *.
    assert (S1 : save_to_csv cfg = true -> w_csv w1 <> None).
    { intros Sv. destruct Y as (_ & _ & F). unfold w1. rewrite F, Sv.
      discriminate. }
    destruct (animate_yields frames (frame_of (cycle_rows obs)) w1
                (Buffer.batch_nonempty obs L)
                (Frame.increasing_frame_of _) S1)
      as (obss & df' & Ls & Ev & Y2).
    exists obs, obss, df'.
    split; [exact L|]. split; [exact Ls|]. split; [exact Ev|].
    set (g := fun f : option (list csv_line) =>
                if save_to_csv cfg
                then Some (csv_lines f ++ map CsvRecord (flat_map cycle_rows obss))
                else f).
    assert (G : (if save_to_csv cfg
                 then Some (CsvHeader csv_columns
                            :: map CsvRecord (cycle_rows obs ++ flat_map cycle_rows obss))
                 else w_csv w)
                = g (if save_to_csv cfg
                     then Some (CsvHeader csv_columns :: map CsvRecord (cycle_rows obs))
                     else w_csv w)).
    { unfold g. destruct (save_to_csv cfg); [|reflexivity].
      cbn [csv_lines]. now rewrite map_app. }
    rewrite G. unfold main.
    replace (prints ++ handshake_events d0 d1 d2 d3 ++ cycle_events obs
                    ++ flat_map cycle_events obss)
      with ((prints ++ handshake_events d0 d1 d2 d3 ++ cycle_events obs)
              ++ flat_map cycle_events obss)
      by now rewrite <- !app_assoc.
    apply (yields_bind_file _ _ w (frame_of (cycle_rows obs)) _ _ (Ok df') _ g);
      [exact Y|].
    exact Y2.
Qed.

End Runs.

(* ================================================================= *)
(** ** Reading a trace *)

Module Trace.

Lemma bytes_eqb_eq (a b : list byte) : bytes_eqb a b = true <-> a = b.
Proof.
  revert b. induction a as [|x a IH]; intros [|y b]; cbn [bytes_eqb];
    try (split; [discriminate | congruence]); [tauto|].
  rewrite andb_true_iff, IH. split.
  - intros [E ->]. apply Byte.byte_dec_bl in E. now subst.
  - intros [= -> ->]. split; [apply Byte.byte_dec_lb|]; reflexivity.
Qed.

Lemma writes_of_app (a b : list event) :
  writes_of (a ++ b) = writes_of a ++ writes_of b.
Proof. apply flat_map_app. Qed.

Lemma reads_of_app (a b : list event) :
  reads_of (a ++ b) = reads_of a ++ reads_of b.
Proof. apply flat_map_app. Qed.

Lemma prints_silent (ps : list event) :
  forallb is_print ps = true ->
  writes_of ps = [] /\ reads_of ps = [] /\ filter is_open ps = []
  /\ (forall c t, response_to c (ps ++ t) = response_to c t).
Proof.
  induction ps as [|e ps IH]; cbn [forallb]; intros P.
  - repeat split.
  - apply andb_true_iff in P. destruct P as [Pe P].
    destruct (IH P) as (W & R & O & T).
    destruct e; try discriminate. cbn. repeat split; auto.
Qed.

Lemma five {A} (l : list A) :
  length l = 5%nat -> exists a b c d e, l = [a; b; c; d; e].
Proof.
  destruct l as [|a [|b [|c [|d [|e [|f l]]]]]]; try discriminate.
  intros _. now exists a, b, c, d, e.
Qed.

(** What one cycle's events and rows say about a table entry: its command
    was answered by [d], and the one row under its name holds the decoded
    [d]. *)
Lemma cycle_entry (obs : list (Z * list byte)) (name : string) (s : sensor_spec) :
  length obs = 5%nat ->
  In (name, s) communication_specs ->
  exists t d,
    response_to (command s) (cycle_events obs) = Some d
    /\ In (mkReading t name (unit_label s) (decode s d)) (cycle_rows obs)
    /\ (forall r, In r (cycle_rows obs) -> row_id r = name ->
                  r = mkReading t name (unit_label s) (decode s d)).
Proof.
  intros L I. destruct (five obs L) as ([t1 d1] & [t2 d2] & [t3 d3] & [t4 d4] & [t5 d5] & ->).
  cbn in I.
  destruct I as [E|[E|[E|[E|[E|[]]]]]]; injection E as <- <-.
  - exists t1, d1. cbn -[decode]. repeat split; [tauto|].
    intros r [<-|[<-|[<-|[<-|[<-|[]]]]]]; cbn; intros Q;
      first [reflexivity | discriminate Q].
  - exists t2, d2. cbn -[decode]. repeat split; [tauto|].
    intros r [<-|[<-|[<-|[<-|[<-|[]]]]]]; cbn; intros Q;
      first [reflexivity | discriminate Q].
  - exists t3, d3. cbn -[decode]. repeat split; [tauto|].
    intros r [<-|[<-|[<-|[<-|[<-|[]]]]]]; cbn; intros Q;
      first [reflexivity | discriminate Q].
  - exists t4, d4. cbn -[decode]. repeat split; [tauto|].
    intros r [<-|[<-|[<-|[<-|[<-|[]]]]]]; cbn; intros Q;
      first [reflexivity | discriminate Q].
  - exists t5, d5. cbn -[decode]. repeat split; [tauto|].
    intros r [<-|[<-|[<-|[<-|[<-|[]]]]]]; cbn; intros Q;
      first [reflexivity | discriminate Q].
Qed.

End Trace.

(* ================================================================= *)
(** ** Properties of the script *)

Section Claims.

Context {Line Clock : Type} `{SerialPort Line} `{WallClock Clock}.

Abbreviation World := (world Line Clock).

(** Every collection cycle ends normally; its events and its rows are
    those of some five observations. *)
Lemma collect_total (save : bool) (w : World) :
  exists obs,
    length obs = 5%nat
    /\ fst (get_new_sensor_values save w) = Ok (frame_of (cycle_rows obs))
    /\ events_of (get_new_sensor_values save) w = cycle_events obs.
Proof.
  destruct (collect_yields save w) as (obs & L & Y).
  exists obs. split; [exact L|]. split; [apply Y|].
  eapply yields_events. exact Y.
Qed.

(** C1.  For every entry of the table: when the bytes read in answer to
    the entry's command are the little-endian encoding (signed as the
    entry says) of [v] on exactly [nr_of_bytes] bytes, the cycle ends
    normally and its one row under the entry's name carries the entry's
    unit and the value [v * multiplier].  In particular the answer
    [0x0A, 0x00] to command [0x10] gives the row with id 'TC1', unit 'T'
    and value 1.0. *)
Theorem full_width_response_decodes_exactly :
  (forall (save : bool) (w : World) name s v bs,
      In (name, s) communication_specs ->
      int_to_bytes v (nr_of_bytes s) (signed s) = Some bs ->
      response_to (command s) (events_of (get_new_sensor_values save) w)
        = Some bs ->
      exists df r,
        fst (get_new_sensor_values save w) = Ok df
        /\ In r (rows df)
        /\ row_id r = name
        /\ row_unit r = unit_label s
        /\ row_value r = py_mul (PyInt v) (multiplier s)
        /\ (forall r', In r' (rows df) -> row_id r' = name -> r' = r))
  /\ (forall (save : bool) (w : World),
         response_to [x10] (events_of (get_new_sensor_values save) w)
           = Some [x0a; x00] ->
         exists df r,
           fst (get_new_sensor_values save w) = Ok df
           /\ In r (rows df)
           /\ row_id r = "TC1"%string
           /\ row_unit r = "T"%string
           /\ row_value r = PyFloat 1.0%float).
Proof.
  assert (G : forall (save : bool) (w : World) name s v bs,
      In (name, s) communication_specs ->
      int_to_bytes v (nr_of_bytes s) (signed s) = Some bs ->
      response_to (command s) (events_of (get_new_sensor_values save) w)
        = Some bs ->
      exists df r,
        fst (get_new_sensor_values save w) = Ok df
        /\ In r (rows df)
        /\ row_id r = name
        /\ row_unit r = unit_label s
        /\ row_value r = py_mul (PyInt v) (multiplier s)
        /\ (forall r', In r' (rows df) -> row_id r' = name -> r' = r)).
  { intros save w name s v bs I Enc Resp.
    destruct (collect_total save w) as (obs & L & R & Ev).
    destruct (Trace.cycle_entry obs name s L I) as (t & d & Rd & Ir & U).
    rewrite Ev, Rd in Resp. injection Resp as ->.
    destruct (LittleEndian.int_from_bytes_to_bytes _ _ _ _ Enc) as [Len Dec].
    exists (frame_of (cycle_rows obs)),
           (mkReading t name (unit_label s) (decode s bs)).
    rewrite Frame.rows_frame_of.
    split; [exact R|]. split; [exact Ir|].
    split; [reflexivity|]. split; [reflexivity|]. split; [|exact U].
    cbn [row_value]. unfold decode.
    rewrite <- Len, firstn_all, Dec. reflexivity. }
  split; [exact G|].
  intros save w Resp.
  destruct (G save w "TC1"%string
              (mkSpec [x10] 2 (PyFloat 0.1%float) "T" true) 10 [x0a; x00]
              (or_introl eq_refl) eq_refl Resp)
    as (df & r & R & I & Id & Un & V & _).
  exists df, r.
  split; [exact R|]. split; [exact I|]. split; [exact Id|].
  split; [exact Un|].
  rewrite V. vm_compute. reflexivity.
Qed.

(** C4.  For every entry of the table and every answer shorter than the
    entry's [nr_of_bytes] (the empty answer included): the cycle ends
    normally, and the entry's row holds the two's-complement (for a signed
    entry) or plain positional (for an unsigned one) little-endian reading
    of exactly the bytes received, times the entry's multiplier; for the
    empty answer that value is zero.  Nothing compares the length of the
    answer with [nr_of_bytes]. *)
Theorem short_response_decoded_as_received
        (save : bool) (w : World) name s d :
  In (name, s) communication_specs ->
  response_to (command s) (events_of (get_new_sensor_values save) w)
    = Some d ->
  (length d < nr_of_bytes s)%nat ->
  exists df r,
    fst (get_new_sensor_values save w) = Ok df
    /\ In r (rows df)
    /\ row_id r = name
    /\ row_value r
       = py_mul (PyInt (twos_complement_value d (signed s))) (multiplier s)
    /\ (d = [] -> py_is_zero (row_value r) = true).
Proof.
  intros I Resp Short.
  destruct (collect_total save w) as (obs & L & R & Ev).
  destruct (Trace.cycle_entry obs name s L I) as (t & d' & Rd & Ir & _).
  rewrite Ev, Rd in Resp. injection Resp as ->.
  exists (frame_of (cycle_rows obs)),
         (mkReading t name (unit_label s) (decode s d)).
  rewrite Frame.rows_frame_of.
  split; [exact R|]. split; [exact Ir|]. split; [reflexivity|].
  assert (V : decode s d
              = py_mul (PyInt (twos_complement_value d (signed s)))
                       (multiplier s)).
  { unfold decode. rewrite firstn_all2 by lia.
    now rewrite LittleEndian.int_from_bytes_twos_complement. }
  split; [exact V|].
  intros ->. cbn [row_value].
  cbn in I.
  destruct I as [E|[E|[E|[E|[E|[]]]]]]; injection E as <- <-;
    vm_compute; reflexivity.
Qed.

(** C8.  Every collection cycle ends normally with exactly five rows, in
    the order of the table: ids TC1, TC2, VDD, TH1, TH2; commands 0x10,
    0x11, 0x12, 0x14, 0x15 written in that order; reads of 2, 2, 4, 2, 2
    bytes; units 'T', 'T', 'uV', 'ADC value', 'ADC value'; and each value
    the signed (TC1, TC2, VDD) or unsigned (TH1, TH2) little-endian
    reading of what its read returned, times 0.1, 0.1, 1, 1, 1. *)
Theorem cycle_returns_five_rows_in_table_order (save : bool) (w : World) :
  exists df d1 d2 d3 d4 d5,
    fst (get_new_sensor_values save w) = Ok df
    /\ length df = 5%nat
    /\ map row_id (rows df) = ["TC1"; "TC2"; "VDD"; "TH1"; "TH2"]%string
    /\ map row_unit (rows df)
       = ["T"; "T"; "uV"; "ADC value"; "ADC value"]%string
    /\ writes_of (events_of (get_new_sensor_values save) w)
       = [[x10]; [x11]; [x12]; [x14]; [x15]]
    /\ reads_of (events_of (get_new_sensor_values save) w)
       = [(2, d1); (2, d2); (4, d3); (2, d4); (2, d5)]%nat
    /\ map row_value (rows df)
       = [ py_mul (PyInt (int_from_bytes (firstn 2 d1) true)) (PyFloat 0.1%float);
           py_mul (PyInt (int_from_bytes (firstn 2 d2) true)) (PyFloat 0.1%float);
           py_mul (PyInt (int_from_bytes (firstn 4 d3) true)) (PyInt 1);
           py_mul (PyInt (int_from_bytes (firstn 2 d4) false)) (PyInt 1);
           py_mul (PyInt (int_from_bytes (firstn 2 d5) false)) (PyInt 1) ].
Proof.
  destruct (collect_total save w) as (obs & L & R & Ev).
  destruct (Trace.five obs L)
    as ([t1 d1] & [t2 d2] & [t3 d3] & [t4 d4] & [t5 d5] & ->).
  exists (frame_of (cycle_rows [(t1, d1); (t2, d2); (t3, d3); (t4, d4); (t5, d5)])),
         d1, d2, d3, d4, d5.
  rewrite Ev, Frame.rows_frame_of, Frame.length_frame_of.
  split; [exact R|]. repeat split; reflexivity.
Qed.

(** *** Runs of the whole program *)

(** A run that ends normally passed the handshake; its buffer evolved
    from the first batch, and its file and trace are as follows. *)
Lemma main_ok (cfg : settings) (frames : nat) (w w' : World) (df : dataframe) :
  main cfg frames w = (Ok df, w') ->
  exists prints d0 d2 d3 obs obss,
    forallb is_print prints = true
    /\ length obs = 5%nat
    /\ length obss = frames
    /\ evolves (max_length cfg) (frame_of (cycle_rows obs)) obss df
    /\ events_of (main cfg frames) w
       = prints ++ handshake_events d0 [x0d; xee] d2 d3
                ++ cycle_events obs ++ flat_map cycle_events obss
    /\ w_csv w'
       = (if save_to_csv cfg
          then Some (CsvHeader csv_columns
                     :: map CsvRecord (cycle_rows obs
                                       ++ flat_map cycle_rows obss))
          else w_csv w).
Proof.
  intros Hm.
  destruct (main_yields cfg frames w)
    as (prints & d0 & d1 & d2 & d3 & P & [[E Y]|[E Y]]).
  - destruct Y as (R & _). rewrite Hm in R. discriminate R.
  - destruct Y as (obs & obss & df' & L & Ls & Ev & Y).
    apply Trace.bytes_eqb_eq in E. subst d1.
    exists prints, d0, d2, d3, obs, obss.
    pose proof (yields_events _ _ _ _ _ Y) as T.
    destruct Y as (R & _ & F). rewrite Hm in R, F. cbn [fst snd] in R, F.
    injection R as <-. auto 10.
Qed.

Lemma main_buffer (cfg : settings) (frames : nat) (w w' : World) (df : dataframe) :
  main cfg frames w = (Ok df, w') ->
  df <> [] /\ increasing (index df)
  /\ (5 <= max_length cfg -> Z.of_nat (length df) <= max_length cfg).
Proof.
  intros Hm.
  destruct (main_ok cfg frames w w' df Hm)
    as (_ & _ & _ & _ & obs & obss & _ & L & _ & Ev & _).
  destruct (Buffer.evolves_invariant _ _ _ _ Ev (Buffer.batch_nonempty obs L)
              (Frame.increasing_frame_of _)) as (N & I & _ & B & _).
  split; [exact N|]. split; [exact I|].
  intros C. apply B. rewrite (Buffer.length_batch obs L). cbn. lia.
Qed.

(** C3.  The handshake fails, with [AssertionError], exactly when the
    answer to the device-ID probe (command [0x01]) is not the two bytes
    [0x0D 0xEE]; on those two bytes it ends normally.  In the program a
    differing answer stops the run with [AssertionError] after the first
    two probes: nothing else is written to the port or read from it, so no
    sensor is read; on the expected answer the run does not stop with
    [AssertionError]. *)
Theorem handshake_asserts_device_id :
  (forall w : World,
      exists id,
        response_to [x01] (events_of check_connection w) = Some id
        /\ (fst (check_connection w) = Raise AssertionError
            <-> id <> [x0d; xee])
        /\ (id = [x0d; xee] -> fst (check_connection w) = Ok tt))
  /\ (forall (cfg : settings) (frames : nat) (w : World),
         exists id,
           response_to [x01] (events_of (main cfg frames) w) = Some id
           /\ (fst (main cfg frames w) = Raise AssertionError
               <-> id <> [x0d; xee])
           /\ (id <> [x0d; xee] ->
               writes_of (events_of (main cfg frames) w) = [[x00]; [x01]]
               /\ map fst (reads_of (events_of (main cfg frames) w))
                  = [100; 100]%nat)).
Proof.
  split.
  - intros w. destruct (handshake_yields w) as (d0 & d1 & d2 & d3 & Y).
    exists d1. rewrite (yields_events _ _ _ _ _ Y).
    destruct Y as (R & _). rewrite R.
    split; [reflexivity|].
    destruct (bytes_eqb d1 [x0d; xee]) eqn:E.
    + apply Trace.bytes_eqb_eq in E. split; [|reflexivity].
      split; [discriminate | congruence].
    + assert (d1 <> [x0d; xee]).
      { intros Q. apply Trace.bytes_eqb_eq in Q. congruence. }
      split; [tauto | congruence].
  - intros cfg frames w.
    destruct (main_yields cfg frames w)
      as (prints & d0 & d1 & d2 & d3 & P & [[E Y]|[E Y]]).
    + exists d1. rewrite (yields_events _ _ _ _ _ Y).
      destruct Y as (R & _). rewrite R.
      destruct (Trace.prints_silent prints P) as (Wp & Rp & _ & Tp).
      assert (N : d1 <> [x0d; xee]).
      { intros Q. apply Trace.bytes_eqb_eq in Q. congruence. }
      split; [rewrite Tp; reflexivity|].
      split; [tauto|].
      intros _. rewrite Trace.writes_of_app, Trace.reads_of_app, Wp, Rp.
      unfold handshake_events. rewrite E. split; reflexivity.
    + destruct Y as (obs & obss & df' & _ & _ & _ & Y).
      exists d1. rewrite (yields_events _ _ _ _ _ Y).
      destruct Y as (R & _). rewrite R.
      destruct (Trace.prints_silent prints P) as (_ & _ & _ & Tp).
      apply Trace.bytes_eqb_eq in E.
      split; [rewrite Tp; reflexivity|].
      split; [split; [discriminate | congruence]|].
      intros N. contradiction.
Qed.

(** C5, as the script has it.  The handshake opens the port once: its
    first event is the one [open], its last the one [close], and all its
    probes go over that connection; a collection cycle likewise opens the
    port once and sends the five commands of the table over that one
    connection.  No write of either gets a connection of its own. *)
Theorem one_connection_per_handshake_and_per_cycle :
  (forall w : World,
      let evs := events_of check_connection w in
      hd_error evs = Some (EvOpen kth_settings)
      /\ last evs EvFlush = EvClose
      /\ filter is_open evs = [EvOpen kth_settings]
      /\ filter is_close evs = [EvClose]
      /\ fresh_connections true evs = false
      /\ (fst (check_connection w) = Ok tt ->
          writes_of evs = [[x00]; [x01]; [x02]; [x03]]))
  /\ (forall (save : bool) (w : World),
         let evs := events_of (get_new_sensor_values save) w in
         hd_error evs = Some (EvOpen kth_settings)
         /\ last evs EvFlush = EvClose
         /\ filter is_open evs = [EvOpen kth_settings]
         /\ filter is_close evs = [EvClose]
         /\ fresh_connections true evs = false
         /\ writes_of evs = [[x10]; [x11]; [x12]; [x14]; [x15]]).
Proof.
  split.
  - intros w evs. subst evs.
    destruct (handshake_yields w) as (d0 & d1 & d2 & d3 & Y).
    rewrite (yields_events _ _ _ _ _ Y). destruct Y as (R & _). rewrite R.
    unfold handshake_events.
    destruct (bytes_eqb d1 [x0d; xee]); repeat split; try reflexivity.
    discriminate.
  - intros save w evs. subst evs.
    destruct (collect_total save w) as (obs & L & _ & Ev). rewrite Ev.
    destruct (Trace.five obs L)
      as ([t1 d1] & [t2 d2] & [t3 d3] & [t4 d4] & [t5 d5] & ->).
    repeat split; reflexivity.
Qed.

(** C6, as the script has it.  With saving on: startup writes the file
    anew, whatever it held, as one header row followed by the first batch
    of five records; every later frame adds its five records after the
    lines already there and writes no header; so the file of a run that
    ends normally is one header row followed by five records for startup
    and five per frame. *)
Theorem log_rewritten_at_startup_then_appended (cfg : settings) :
  save_to_csv cfg = true ->
  (forall (w w' : World) df,
      startup cfg w = (Ok df, w') ->
      length df = 5%nat
      /\ w_csv w' = Some (CsvHeader csv_columns :: map CsvRecord (rows df)))
  /\ (forall (df : dataframe) (w : World),
         exists batch,
           length batch = 5%nat
           /\ w_csv (snd (animation_update cfg df w))
              = Some (csv_lines (w_csv w) ++ map CsvRecord batch))
  /\ (forall (frames : nat) (w w' : World) df,
         main cfg frames w = (Ok df, w') ->
         exists recs,
           length recs = (5 * (frames + 1))%nat
           /\ w_csv w' = Some (CsvHeader csv_columns :: map CsvRecord recs)).
Proof.
  intros S. split; [|split].
  - intros w w' df Hs.
    destruct (startup_yields cfg w)
      as (prints & d0 & d1 & d2 & d3 & P & [[E Y]|[E Y]]).
    + destruct Y as (R & _). rewrite Hs in R. discriminate R.
    + destruct Y as (obs & L & R & _ & F).
      rewrite Hs in R, F. cbn [fst snd] in R, F. injection R as ->.
      rewrite S in F. rewrite Frame.rows_frame_of.
      split; [apply Buffer.length_batch, L | exact F].
  - intros df w.
    destruct (collect_yields (save_to_csv cfg) w) as (obs & L & R & _ & F).
    exists (cycle_rows obs). split; [apply Buffer.length_cycle_rows, L|].
    rewrite S in F at 2.
    unfold animation_update. rewrite snd_bind_lift. exact F.
  - intros frames w w' df Hm.
    destruct (main_ok cfg frames w w' df Hm)
      as (_ & _ & _ & _ & obs & obss & _ & L & Ls & Ev & _ & F).
    rewrite S in F.
    exists (cycle_rows obs ++ flat_map cycle_rows obss).
    split; [|exact F].
    rewrite length_app, (Buffer.length_cycle_rows obs L),
      (Buffer.evolves_rows_length _ _ _ _ Ev), Ls. lia.
Qed.

(** C7.  With saving on, in a run that ends normally every row of the
    buffer is a record of the file; and the collection step of the next
    frame, which comes before that frame's merge into the buffer, leaves
    its whole batch in the file. *)
Theorem buffer_rows_are_logged
        (cfg : settings) (frames : nat) (w w' : World) (df : dataframe) :
  save_to_csv cfg = true ->
  main cfg frames w = (Ok df, w') ->
  (forall r, In r (rows df) -> In (CsvRecord r) (csv_lines (w_csv w')))
  /\ (forall batch w1,
         get_new_sensor_values (save_to_csv cfg) w' = (Ok batch, w1) ->
         (forall r, In r (rows batch) ->
                    In (CsvRecord r) (csv_lines (w_csv w1)))
         /\ (forall r, In r (rows df) ->
                       In (CsvRecord r) (csv_lines (w_csv w1)))).
Proof.
  intros S Hm.
  destruct (main_ok cfg frames w w' df Hm)
    as (_ & _ & _ & _ & obs & obss & _ & L & _ & Ev & _ & F).
  rewrite S in F.
  destruct (Buffer.evolves_invariant _ _ _ _ Ev (Buffer.batch_nonempty obs L)
              (Frame.increasing_frame_of _)) as (_ & _ & _ & _ & Rw).
  assert (A : forall r, In r (rows df) ->
                        In (CsvRecord r) (csv_lines (w_csv w'))).
  { intros r Hr. rewrite F. cbn [csv_lines]. right.
    apply in_map. apply in_or_app.
    destruct (Rw r Hr) as [K|K]; [left | right; exact K].
    now rewrite Frame.rows_frame_of in K. }
  split; [exact A|].
  intros batch w1 Hc.
  destruct (collect_yields (save_to_csv cfg) w') as (obs1 & _ & R1 & _ & F1).
  rewrite Hc in R1, F1. cbn [fst snd] in R1, F1. injection R1 as ->.
  rewrite S in F1. rewrite F1. cbn [csv_lines].
  split; intros r Hr; apply in_or_app.
  - right. apply in_map. now rewrite Frame.rows_frame_of in Hr.
  - left. apply A, Hr.
Qed.

(** C9.  The label of line 117 is one past [df.index.max()], and the index
    has a largest label exactly when the buffer has rows; the new row then
    goes to the end under that label.  The program gives every merge such a
    buffer: startup leaves the first batch of five rows in it, and after any
    number of frames it still has rows; so the merge of lines 115-122 ends
    normally on every buffer a run reaches, whatever the batch. *)
Theorem merge_needs_rows_and_gets_them :
  (forall df, (exists m, index_max df = Some m) <-> df <> [])
  /\ (forall df row m,
         index_max df = Some m ->
         In m (index df)
         /\ Forall (fun l => l <= m) (index df)
         /\ loc_next df row = Ok (df ++ [(m + 1, row)]))
  /\ (forall (cfg : settings) (w w' : World) df,
         startup cfg w = (Ok df, w') -> length df = 5%nat)
  /\ (forall (cfg : settings) (frames : nat) (w w' : World) df,
         main cfg frames w = (Ok df, w') -> df <> [])
  /\ (forall (cfg : settings) (frames : nat) (w w' : World) df batch,
         main cfg frames w = (Ok df, w') ->
         exists df', ingest (max_length cfg) df batch = Ok df').
Proof.
  split; [|split; [|split; [|split]]].
  - intros df. split.
    + intros [m E] ->. discriminate E.
    + intros N. destruct (index_max df) as [m|] eqn:E.
      * now exists m.
      * apply Frame.index_max_none in E. contradiction.
  - intros df row m E. split; [now apply Frame.index_max_in|].
    split; [now apply Frame.index_max_bound|].
    now apply Frame.loc_next_appends.
  - intros cfg w w' df Hs.
    destruct (startup_yields cfg w)
      as (prints & d0 & d1 & d2 & d3 & P & [[E Y]|[E Y]]).
    + destruct Y as (R & _). rewrite Hs in R. discriminate R.
    + destruct Y as (obs & L & R & _).
      rewrite Hs in R. cbn [fst] in R. injection R as ->.
      apply Buffer.length_batch, L.
  - intros cfg frames w w' df Hm. apply (main_buffer cfg frames w w' df Hm).
  - intros cfg frames w w' df batch Hm.
    destruct (main_buffer cfg frames w w' df Hm) as (N & I & _).
    destruct (Frame.ingest_ok (max_length cfg) df batch N I) as (df' & E & _).
    now exists df'.
Qed.

(** C2.  In the program as configured ([max_length] 500): whatever buffer
    a run has reached and whatever batch is merged into it, the merge ends
    normally; the batch's rows come after the buffer's, in their order;
    when that makes more than [max_length] rows, exactly the first
    [len(batch)] rows - the oldest - are dropped and no others; and the
    buffer then holds at most [max_length] rows. *)
Theorem ingest_appends_then_evicts_oldest
        (frames : nat) (w w' : World) (df batch : dataframe) :
  main module_settings frames w = (Ok df, w') ->
  exists df',
    ingest (max_length module_settings) df batch = Ok df'
    /\ rows df'
       = (if max_length module_settings
             <? Z.of_nat (length df + length batch)
          then skipn (length batch) (rows df ++ rows batch)
          else rows df ++ rows batch)
    /\ Z.of_nat (length df') <= max_length module_settings.
Proof.
  intros Hm.
  destruct (main_buffer module_settings frames w w' df Hm) as (N & I & B).
  assert (C : Z.of_nat (length df) <= max_length module_settings)
    by (apply B; cbn; lia).
  destruct (Frame.ingest_ok (max_length module_settings) df batch N I)
    as (df' & E & R & L & _).
  exists df'. split; [exact E|]. split; [exact R|].
  rewrite L.
  destruct (Z.ltb_spec (max_length module_settings)
                       (Z.of_nat (length df + length batch))); lia.
Qed.

End Claims.


(** C10.  Whatever bytes are read, the TH1 and TH2 values are non-negative
    integers (unsigned reading, multiplier 1); TC1, TC2 and VDD are read as
    signed and some full-width answer makes each of them negative. *)
Theorem unsigned_channels_nonnegative (name : string) (s : sensor_spec) :
  In (name, s) communication_specs ->
  ((name = "TH1"%string \/ name = "TH2"%string) ->
     signed s = false
     /\ multiplier s = PyInt 1
     /\ forall d, exists n, decode s d = PyInt n /\ 0 <= n)
  /\ ((name = "TC1"%string \/ name = "TC2"%string \/ name = "VDD"%string) ->
        signed s = true
        /\ exists d, length d = nr_of_bytes s
                     /\ py_negative (decode s d) = true).
Proof.
  intros I. cbn in I.
  assert (U : forall w d, exists n,
               decode (mkSpec w 2 (PyInt 1) "ADC value" false) d = PyInt n
               /\ 0 <= n).
  { intros w d. unfold decode. cbn [nr_of_bytes signed multiplier py_mul].
    eexists. split; [reflexivity|].
    pose proof (LittleEndian.int_from_bytes_unsigned_nonneg (firstn 2 d)). lia. }
  destruct I as [E|[E|[E|[E|[E|[]]]]]]; injection E as <- <-; split;
    try (intros [Q|Q]; discriminate Q);
    try (intros [Q|[Q|Q]]; discriminate Q).
  - intros _. split; [reflexivity|]. exists [xff; xff]. split; reflexivity.
  - intros _. split; [reflexivity|]. exists [xff; xff]. split; reflexivity.
  - intros _. split; [reflexivity|]. exists [xff; xff; xff; xff].
    split; reflexivity.
  - intros _. split; [reflexivity|]. split; [reflexivity|]. apply U.
  - intros _. split; [reflexivity|]. split; [reflexivity|]. apply U.
Qed.

(* ================================================================= *)
(** ** The theorems on the scripted device *)

(** The thermometer answers TC2 with [0xFF 0xFF], the encoding of -1 on two
    signed bytes: the row holds [-1 * 0.1]. *)
Lemma full_width_response_example :
  exists df r,
    fst (get_new_sensor_values false (Mock.boot Mock.kth 1000 None)) = Ok df
    /\ In r (rows df)
    /\ row_id r = "TC2"%string
    /\ row_unit r = "T"%string
    /\ row_value r = py_mul (PyInt (-1)) (PyFloat 0.1%float)
    /\ (forall r', In r' (rows df) -> row_id r' = "TC2"%string -> r' = r).
Proof.
  apply (proj1 (@full_width_response_decodes_exactly
                  Mock.line Z Mock.serial Mock.clock)
               false (Mock.boot Mock.kth 1000 None) "TC2"%string
               (mkSpec [x11] 2 (PyFloat 0.1%float) "T" true) (-1) [xff; xff]).
  - cbn. tauto.
  - reflexivity.
  - vm_compute. reflexivity.
Defined.

(** The slow thermometer answers TC1 with the single byte [0xFE]: the row
    holds [-2 * 0.1], the signed reading of that one byte. *)
Lemma short_response_example :
  exists df r,
    fst (get_new_sensor_values false (Mock.boot Mock.slow_kth 0 None)) = Ok df
    /\ In r (rows df)
    /\ row_id r = "TC1"%string
    /\ row_value r
       = py_mul (PyInt (twos_complement_value [xfe] true)) (PyFloat 0.1%float)
    /\ ([xfe] = [] -> py_is_zero (row_value r) = true).
Proof.
  apply (@short_response_decoded_as_received
           Mock.line Z Mock.serial Mock.clock
           false (Mock.boot Mock.slow_kth 0 None) "TC1"%string
           (mkSpec [x10] 2 (PyFloat 0.1%float) "T" true) [xfe]).
  - cbn. tauto.
  - vm_compute. reflexivity.
  - cbn. lia.
Defined.

(** TH1 is in the table and unsigned. *)
Lemma unsigned_channels_example :
  signed (mkSpec [x14] 2 (PyInt 1) "ADC value" false) = false
  /\ multiplier (mkSpec [x14] 2 (PyInt 1) "ADC value" false) = PyInt 1
  /\ forall d, exists n,
       decode (mkSpec [x14] 2 (PyInt 1) "ADC value" false) d = PyInt n
       /\ 0 <= n.
Proof.
  apply (proj1 (unsigned_channels_nonnegative "TH1"%string
                  (mkSpec [x14] 2 (PyInt 1) "ADC value" false)
                  (or_intror (or_intror (or_intror (or_introl eq_refl)))))).
  left. reflexivity.
Defined.

(** Against C5: on the thermometer the handshake's four probes, and a
    cycle's five commands, share one connection each. *)
Lemma probes_share_one_connection :
  fresh_connections true
    (events_of check_connection (Mock.boot Mock.kth 0 None)) = false
  /\ length (filter is_open
               (events_of check_connection (Mock.boot Mock.kth 0 None)))
     = 1%nat
  /\ writes_of (events_of check_connection (Mock.boot Mock.kth 0 None))
     = [[x00]; [x01]; [x02]; [x03]]
  /\ fresh_connections true
       (events_of (get_new_sensor_values false) (Mock.boot Mock.kth 0 None))
     = false
  /\ length (filter is_open
               (events_of (get_new_sensor_values false)
                          (Mock.boot Mock.kth 0 None)))
     = 1%nat.
Proof. vm_compute. repeat split; reflexivity. Qed.

(** Against C6: a run that finds the lines of an earlier run in the file
    does not keep them.  After startup and one frame the file has eleven
    lines, none of them an old record, and is no extension of the old file;
    a second run started on that file leaves six lines, fewer than it
    found. *)
Lemma second_run_overwrites_log :
  csv_lines (w_csv (Mock.boot Mock.kth 1000 (Some Mock.old_log)))
  = Mock.old_log
  /\ length (csv_lines
               (w_csv (snd (main module_settings 1
                                 (Mock.boot Mock.kth 1000
                                            (Some Mock.old_log))))))
     = 11%nat
  /\ ~ (exists suffix,
           csv_lines
             (w_csv (snd (main module_settings 1
                               (Mock.boot Mock.kth 1000 (Some Mock.old_log)))))
           = Mock.old_log ++ suffix)
  /\ length (csv_lines
               (w_csv (snd (main module_settings 0
                                 (snd (main module_settings 1
                                            (Mock.boot Mock.kth 1000
                                                       (Some Mock.old_log))))))))
     = 6%nat.
Proof.
  split; [reflexivity|]. split; [vm_compute; reflexivity|].
  split; [|vm_compute; reflexivity].
  intros [suffix E]. vm_compute in E. discriminate E.
Qed.

(** With saving on, as in the module: the file after startup and two
    frames on the thermometer. *)
Lemma log_within_a_run_example :
  (forall (w w' : world Mock.line Z) df,
      startup module_settings w = (Ok df, w') ->
      length df = 5%nat
      /\ w_csv w' = Some (CsvHeader csv_columns :: map CsvRecord (rows df)))
  /\ (forall (df : dataframe) (w : world Mock.line Z),
         exists batch,
           length batch = 5%nat
           /\ w_csv (snd (animation_update module_settings df w))
              = Some (csv_lines (w_csv w) ++ map CsvRecord batch))
  /\ (forall (frames : nat) (w w' : world Mock.line Z) df,
         main module_settings frames w = (Ok df, w') ->
         exists recs,
           length recs = (5 * (frames + 1))%nat
           /\ w_csv w' = Some (CsvHeader csv_columns :: map CsvRecord recs)).
Proof.
  apply (@log_rewritten_at_startup_then_appended
           Mock.line Z Mock.serial Mock.clock module_settings).
  reflexivity.
Defined.

(** The buffer and the file after two frames on the thermometer. *)
Lemma buffer_rows_are_logged_example :
  save_to_csv module_settings = true
  /\ forall r,
       In r (rows (ok_or [] (fst (main module_settings 2
                                       (Mock.boot Mock.kth 0 None))))) ->
       In (CsvRecord r)
          (csv_lines (w_csv (snd (main module_settings 2
                                       (Mock.boot Mock.kth 0 None))))).
Proof.
  split; [reflexivity|].
  refine (proj1 (@buffer_rows_are_logged Mock.line Z Mock.serial Mock.clock
                   module_settings 2 (Mock.boot Mock.kth 0 None)
                   (snd (main module_settings 2 (Mock.boot Mock.kth 0 None)))
                   (ok_or [] (fst (main module_settings 2
                                        (Mock.boot Mock.kth 0 None))))
                   _ _)).
  - reflexivity.
  - vm_compute. reflexivity.
Defined.

(** Merging one more batch into the buffer reached after two frames on the
    thermometer. *)
Lemma ingest_example :
  exists df',
    ingest (max_length module_settings)
           (ok_or [] (fst (main module_settings 2 (Mock.boot Mock.kth 0 None))))
           (frame_of [mkReading 7 "TC1" "T" (PyFloat 1.5%float)])
    = Ok df'
    /\ rows df'
       = (if max_length module_settings
             <? Z.of_nat
                  (length (ok_or [] (fst (main module_settings 2
                                               (Mock.boot Mock.kth 0 None))))
                   + length (frame_of [mkReading 7 "TC1" "T"
                                                 (PyFloat 1.5%float)]))
          then skipn (length (frame_of [mkReading 7 "TC1" "T"
                                                  (PyFloat 1.5%float)]))
                     (rows (ok_or [] (fst (main module_settings 2
                                                (Mock.boot Mock.kth 0 None))))
                      ++ rows (frame_of [mkReading 7 "TC1" "T"
                                                   (PyFloat 1.5%float)]))
          else rows (ok_or [] (fst (main module_settings 2
                                         (Mock.boot Mock.kth 0 None))))
               ++ rows (frame_of [mkReading 7 "TC1" "T" (PyFloat 1.5%float)]))
    /\ Z.of_nat (length df') <= max_length module_settings.
Proof.
  apply (@ingest_appends_then_evicts_oldest Mock.line Z Mock.serial Mock.clock
           2 (Mock.boot Mock.kth 0 None)
           (snd (main module_settings 2 (Mock.boot Mock.kth 0 None)))).
  vm_compute. reflexivity.
Defined.

(** A device that answers the device-ID probe with [0x0D 0xEF]: the run
    stops at the assertion. *)
Lemma handshake_example :
  exists id,
    response_to [x01]
      (events_of (main module_settings 3) (Mock.boot Mock.stranger 0 None))
    = Some id
    /\ (fst (main module_settings 3 (Mock.boot Mock.stranger 0 None))
        = Raise AssertionError
        <-> id <> [x0d; xee])
    /\ (id <> [x0d; xee] ->
        writes_of (events_of (main module_settings 3)
                             (Mock.boot Mock.stranger 0 None))
        = [[x00]; [x01]]
        /\ map fst (reads_of (events_of (main module_settings 3)
                                        (Mock.boot Mock.stranger 0 None)))
           = [100; 100]%nat).
Proof.
  apply (proj2 (@handshake_asserts_device_id
                  Mock.line Z Mock.serial Mock.clock)
               module_settings 3%nat (Mock.boot Mock.stranger 0 None)).
Defined.

(** The handshake with the thermometer passes, over one connection. *)
Lemma one_connection_example :
  fst (check_connection (Mock.boot Mock.kth 0 None)) = Ok tt
  /\ writes_of (events_of check_connection (Mock.boot Mock.kth 0 None))
     = [[x00]; [x01]; [x02]; [x03]].
Proof.
  split; [reflexivity|].
  apply (proj1 (@one_connection_per_handshake_and_per_cycle
                  Mock.line Z Mock.serial Mock.clock)
               (Mock.boot Mock.kth 0 None)).
  reflexivity.
Defined.

(** After three frames on the thermometer the buffer has rows. *)
Lemma merge_gets_rows_example :
  ok_or [] (fst (main module_settings 3 (Mock.boot Mock.kth 0 None))) <> [].
Proof.
  apply (proj1 (proj2 (proj2 (proj2
           (@merge_needs_rows_and_gets_them
              Mock.line Z Mock.serial Mock.clock))))
           module_settings 3%nat (Mock.boot Mock.kth 0 None)
           (snd (main module_settings 3 (Mock.boot Mock.kth 0 None)))).
  vm_compute. reflexivity.
Defined.

(* ================================================================= *)
(** ** Further properties: decoded values *)

Module Range.

(** [int.from_bytes] stays within the range of its number of bytes: for
    [n] bytes, [-2^(8n-1) <= v < 2^(8n-1)] when signed (0 for no byte) and
    [0 <= v < 2^(8n)] when not. *)
Lemma int_from_bytes_range (bs : list byte) (sg : bool) :
  if sg
  then - 2 ^ (8 * Z.of_nat (length bs)) <= 2 * int_from_bytes bs sg
       < 2 ^ (8 * Z.of_nat (length bs))
  else 0 <= int_from_bytes bs sg < 2 ^ (8 * Z.of_nat (length bs)).
Proof.
  pose proof (LittleEndian.le_unsigned_range bs) as R.
  unfold int_from_bytes. destruct sg; cbn [andb]; [|exact R].
  destruct bs as [|b tl].
  - cbn. lia.
  - rewrite LittleEndian.sign_bit_half by discriminate.
    destruct (Z.leb_spec (2 ^ (8 * Z.of_nat (length (b :: tl))))
                         (2 * le_unsigned (b :: tl))); lia.
Qed.

Lemma pow256_mono (n m : nat) :
  (n <= m)%nat -> 2 ^ (8 * Z.of_nat n) <= 2 ^ (8 * Z.of_nat m).
Proof. intros L. apply Z.pow_le_mono_r; lia. Qed.

End Range.

(* ================================================================= *)
(** ** Further properties: the buffer as a window *)

Module Window.

Lemma combine_app_same {A B} (l1 l2 : list A) (r1 r2 : list B) :
  length l1 = length r1 ->
  combine (l1 ++ l2) (r1 ++ r2) = combine l1 r1 ++ combine l2 r2.
Proof.
  revert r1. induction l1 as [|a l1 IH]; intros [|b r1] L;
    try discriminate; [reflexivity|].
  cbn. f_equal. apply IH. now injection L.
Qed.

Lemma frame_of_snoc (rs : list reading) (row : reading) :
  frame_of (rs ++ [row]) = frame_of rs ++ [(Z.of_nat (length rs), row)].
Proof.
  unfold frame_of. rewrite length_app, seq_app, map_app.
  rewrite combine_app_same by now rewrite length_map, length_seq.
  reflexivity.
Qed.

Lemma index_window (d : nat) (rs : list reading) :
  index (skipn d (frame_of rs))
  = map Z.of_nat (seq d (length rs - d)).
Proof.
  rewrite Frame.index_skipn, Frame.index_frame_of, skipn_map, skipn_seq.
  reflexivity.
Qed.

(** On a window of [frame_of rs] that has rows, the largest label is the
    last one, [len(rs) - 1]. *)
Lemma index_max_window (d : nat) (rs : list reading) :
  (d < length rs)%nat ->
  index_max (skipn d (frame_of rs)) = Some (Z.of_nat (length rs) - 1).
Proof.
  intros L. destruct (index_max (skipn d (frame_of rs))) as [m|] eqn:E.
  - pose proof (Frame.index_max_in _ _ E) as I.
    pose proof (Frame.index_max_bound _ _ E) as B.
    rewrite index_window in I, B.
    apply in_map_iff in I. destruct I as (k & <- & Ik). apply in_seq in Ik.
    rewrite Forall_forall in B.
    assert (Z.of_nat (length rs - 1) <= Z.of_nat k).
    { apply B, in_map, in_seq. lia. }
    f_equal. lia.
  - apply Frame.index_max_none in E.
    apply (f_equal (@length _)) in E.
    rewrite length_skipn, Frame.length_frame_of in E. cbn in E. lia.
Qed.

Lemma loc_next_window (d : nat) (rs : list reading) (row : reading) :
  (d < length rs)%nat ->
  loc_next (skipn d (frame_of rs)) row
  = Ok (skipn d (frame_of (rs ++ [row]))).
Proof.
  intros L.
  rewrite (Frame.loc_next_appends _ _ _ (index_max_window d rs L)).
  rewrite frame_of_snoc, skipn_app, Frame.length_frame_of.
  replace (d - length rs)%nat with 0%nat by lia.
  replace (Z.of_nat (length rs) - 1 + 1) with (Z.of_nat (length rs)) by lia.
  reflexivity.
Qed.

Lemma append_rows_window (batch : dataframe) (d : nat) (rs : list reading) :
  (d < length rs)%nat ->
  append_rows batch (skipn d (frame_of rs))
  = Ok (skipn d (frame_of (rs ++ rows batch))).
Proof.
  revert rs. induction batch as [|[l row] batch IH]; intros rs L.
  - cbn. now rewrite app_nil_r.
  - cbn [append_rows]. rewrite (loc_next_window d rs row L). cbn [rbind].
    rewrite IH by (rewrite length_app; cbn; lia).
    rewrite <- app_assoc. reflexivity.
Qed.

(** One merge moves the window: its end to the end of the longer series,
    its start by the size of the batch when rows are dropped. *)
Lemma ingest_window (limit : Z) (batch : dataframe) (d : nat)
      (rs : list reading) :
  (d < length rs)%nat ->
  exists d',
    ingest limit (skipn d (frame_of rs)) batch
    = Ok (skipn d' (frame_of (rs ++ rows batch)))
    /\ (d' < length (rs ++ rows batch))%nat.
Proof.
  intros L. unfold ingest. rewrite (append_rows_window batch d rs L).
  cbn [rbind].
  assert (Lb : length (rows batch) = length batch) by apply Frame.length_rows.
  destruct (limit <? _).
  - exists (length batch + d)%nat.
    rewrite Frame.drop_oldest_n_ok.
    + rewrite skipn_skipn. split; [reflexivity|]. rewrite length_app. lia.
    + rewrite Frame.index_skipn. apply Frame.increasing_skipn.
      apply Frame.increasing_frame_of.
    + rewrite length_skipn, Frame.length_frame_of, length_app. lia.
  - exists d. split; [reflexivity|]. rewrite length_app. lia.
Qed.

Lemma evolves_window (limit : Z) df obss df' :
  evolves limit df obss df' ->
  forall (d : nat) (rs : list reading),
    (d < length rs)%nat ->
    df = skipn d (frame_of rs) ->
    exists d',
      (d' < length (rs ++ flat_map cycle_rows obss))%nat
      /\ df' = skipn d' (frame_of (rs ++ flat_map cycle_rows obss)).
Proof.
  induction 1 as [df | df obs obss df1 df' L E Ev IH]; intros d rs Ld ->.
  - exists d. cbn [flat_map]. rewrite app_nil_r. auto.
  - destruct (ingest_window limit (frame_of (cycle_rows obs)) d rs Ld)
      as (d1 & E1 & L1).
    rewrite E in E1. injection E1 as ->.
    rewrite Frame.rows_frame_of in *.
    destruct (IH d1 (rs ++ cycle_rows obs) L1 eq_refl) as (d' & L' & ->).
    exists d'. cbn [flat_map]. rewrite app_assoc. auto.
Qed.

(** The size of the buffer after each frame: five more rows until the next
    five would not fit, then no change. *)
Lemma evolves_length (limit : Z) df obss df' :
  evolves limit df obss df' ->
  df <> [] -> increasing (index df) ->
  forall k : nat,
    length df
    = Nat.min (5 * (k + 1)) (Nat.max 5 (5 * Z.to_nat (limit / 5))) ->
    length df'
    = Nat.min (5 * (k + length obss + 1))
              (Nat.max 5 (5 * Z.to_nat (limit / 5))).
Proof.
  induction 1 as [df | df obs obss df1 df' L E Ev IH]; intros N I k Hk.
  - cbn [length]. rewrite Nat.add_0_r. exact Hk.
  - destruct (Buffer.ingest_step limit df _ df1 N I E) as (N1 & I1 & _).
    destruct (Frame.ingest_ok limit df (frame_of (cycle_rows obs)) N I)
      as (df1' & E1 & _ & L1 & _).
    rewrite E in E1. injection E1 as <-.
    rewrite (Buffer.length_batch obs L) in L1.
    cbn [length]. replace (k + S (length obss) + 1)%nat
      with ((k + 1) + length obss + 1)%nat by lia.
    apply (IH N1 I1). rewrite L1.
    pose proof (Z.div_mod limit 5 ltac:(lia)) as D.
    pose proof (Z.mod_pos_bound limit 5 ltac:(lia)) as M.
    destruct (Z.ltb_spec limit (Z.of_nat (length df + 5))); lia.
Qed.

Lemma evolves_batches (limit : Z) df obss df' :
  evolves limit df obss df' ->
  Forall (fun obs => length obs = 5%nat) obss.
Proof. induction 1; constructor; assumption. Qed.

End Window.

(* ================================================================= *)
(** ** Further properties of the script *)

(** X1.  Whatever the port returns, the integer line 95 reads stays within
    the range of the entry's [nr_of_bytes] bytes - two's-complement range
    for a signed entry, [0 .. 256^nr_of_bytes - 1] for an unsigned one -
    and bytes past the first [nr_of_bytes] do not count. *)
Theorem decoded_integer_within_width (s : sensor_spec) (d : list byte) :
  exists n,
    decode s d = py_mul (PyInt n) (multiplier s)
    /\ (if signed s
        then - 2 ^ (8 * Z.of_nat (nr_of_bytes s)) <= 2 * n
             < 2 ^ (8 * Z.of_nat (nr_of_bytes s))
        else 0 <= n < 2 ^ (8 * Z.of_nat (nr_of_bytes s)))
    /\ decode s d = decode s (firstn (nr_of_bytes s) d).
Proof.
  exists (int_from_bytes (firstn (nr_of_bytes s) d) (signed s)).
  split; [reflexivity|]. split.
  - pose proof (Range.int_from_bytes_range (firstn (nr_of_bytes s) d) (signed s))
      as R.
    pose proof (Range.pow256_mono (length (firstn (nr_of_bytes s) d))
                  (nr_of_bytes s) (firstn_le_length _ _)) as P.
    destruct (signed s); lia.
  - unfold decode. now rewrite firstn_firstn, Nat.min_id.
Qed.

Module Cycle.

(** Of the five rows of a cycle, those with unit 'T' are TC1 and TC2. *)
Lemma unit_T_iff_thermocouple (obs : list (Z * list byte)) (r : reading) :
  length obs = 5%nat ->
  In r (cycle_rows obs) ->
  (String.eqb (row_unit r) "T" = true
   <-> row_id r = "TC1"%string \/ row_id r = "TC2"%string).
Proof.
  intros L I.
  destruct (Trace.five obs L)
    as ([t1 d1] & [t2 d2] & [t3 d3] & [t4 d4] & [t5 d5] & ->).
  cbn -[decode] in I.
  destruct I as [<-|[<-|[<-|[<-|[<-|[]]]]]]; cbn;
    split; try tauto; try discriminate; intros [Q|Q]; discriminate Q.
Qed.

Lemma timestamps (obs : list (Z * list byte)) :
  length obs = 5%nat -> map row_timestamp (cycle_rows obs) = map fst obs.
Proof.
  intros L.
  destruct (Trace.five obs L)
    as ([t1 d1] & [t2 d2] & [t3 d3] & [t4 d4] & [t5 d5] & ->).
  reflexivity.
Qed.

Lemma writes_of_cycle (obs : list (Z * list byte)) :
  length obs = 5%nat ->
  writes_of (cycle_events obs) = [[x10]; [x11]; [x12]; [x14]; [x15]].
Proof.
  intros L.
  destruct (Trace.five obs L)
    as ([t1 d1] & [t2 d2] & [t3 d3] & [t4 d4] & [t5 d5] & ->).
  reflexivity.
Qed.

Lemma writes_of_cycles (obss : list (list (Z * list byte))) :
  Forall (fun obs => length obs = 5%nat) obss ->
  writes_of (flat_map cycle_events obss)
  = concat (repeat [[x10]; [x11]; [x12]; [x14]; [x15]] (length obss)).
Proof.
  induction 1 as [|obs obss L F IH]; [reflexivity|].
  cbn [flat_map length repeat concat].
  now rewrite Trace.writes_of_app, (writes_of_cycle obs L), IH.
Qed.

Lemma port_state_app (o : bool) (a b : list event) :
  port_state o (a ++ b)
  = match port_state o a with
    | Some o' => port_state o' b
    | None => None
    end.
Proof.
  revert o. induction a as [|e a IH]; intros o; [reflexivity|].
  destruct e, o; cbn [app port_state]; try reflexivity; apply IH.
Qed.

Lemma port_state_prints (o : bool) (ps : list event) :
  forallb is_print ps = true -> port_state o ps = Some o.
Proof.
  induction ps as [|e ps IH]; [reflexivity|]. cbn [forallb].
  intros P. apply andb_true_iff in P. destruct P as [Pe P].
  destruct e; try discriminate. cbn [port_state]. exact (IH P).
Qed.

Lemma port_state_handshake (d0 d1 d2 d3 : list byte) :
  port_state false (handshake_events d0 d1 d2 d3) = Some false.
Proof.
  unfold handshake_events. destruct (bytes_eqb d1 [x0d; xee]); reflexivity.
Qed.

Lemma port_state_cycle (obs : list (Z * list byte)) :
  length obs = 5%nat -> port_state false (cycle_events obs) = Some false.
Proof.
  intros L.
  destruct (Trace.five obs L)
    as ([t1 d1] & [t2 d2] & [t3 d3] & [t4 d4] & [t5 d5] & ->).
  reflexivity.
Qed.

Lemma port_state_cycles (obss : list (list (Z * list byte))) :
  Forall (fun obs => length obs = 5%nat) obss ->
  port_state false (flat_map cycle_events obss) = Some false.
Proof.
  induction 1 as [|obs obss L F IH]; [reflexivity|].
  cbn [flat_map]. now rewrite port_state_app, (port_state_cycle obs L).
Qed.

End Cycle.

Section Extras.

Context {Line Clock : Type} `{SerialPort Line} `{WallClock Clock}.

Abbreviation World := (world Line Clock).

(** X2.  A collection cycle called with [save_to_csv=False] leaves the CSV
    file as it was (also absent); called with [True] it puts exactly the
    rows it returns, in their order and without a header, after the lines
    the file had, creating the file when there was none. *)
Theorem collector_appends_its_rows_to_the_file (save : bool) (w : World) :
  exists df,
    fst (get_new_sensor_values save w) = Ok df
    /\ w_csv (snd (get_new_sensor_values save w))
       = (if save
          then Some (csv_lines (w_csv w) ++ map CsvRecord (rows df))
          else w_csv w).
Proof.
  destruct (collect_yields save w) as (obs & L & R & _ & F).
  exists (frame_of (cycle_rows obs)). split; [exact R|].
  rewrite Frame.rows_frame_of. exact F.
Qed.

(** X3.  A run leaves the CSV file exactly as it found it when saving is
    off, and also - saving on or off - when it stops at the handshake's
    assertion: a device that fails the handshake costs the earlier log
    nothing. *)
Theorem file_untouched_without_saving_or_on_failed_handshake
        (cfg : settings) (frames : nat) (w : World) :
  save_to_csv cfg = false \/ fst (main cfg frames w) = Raise AssertionError ->
  w_csv (snd (main cfg frames w)) = w_csv w.
Proof.
  intros C.
  destruct (main_yields cfg frames w)
    as (prints & d0 & d1 & d2 & d3 & P & [[E Y]|[E Y]]).
  - apply Y.
  - destruct Y as (obs & obss & df' & _ & _ & _ & R & _ & F).
    rewrite F. destruct C as [S|Q].
    + now rewrite S.
    + rewrite R in Q. discriminate Q.
Qed.

(** X4.  The buffer is a window on the series of rows collected since
    startup: after startup and [frames] frames, [5 * (frames + 1)] rows have
    been collected, and the buffer is that series, numbered 0, 1, 2, ...,
    without its first [d] rows - each row kept under its number in the
    series, in the order collected, the newest last.  With saving on, the
    file is the header followed by that same series. *)
Theorem buffer_is_window_on_collected_rows
        (cfg : settings) (frames : nat) (w w' : World) (df : dataframe) :
  main cfg frames w = (Ok df, w') ->
  exists (series : list reading) (d : nat),
    length series = (5 * (frames + 1))%nat
    /\ (d < length series)%nat
    /\ df = skipn d (frame_of series)
    /\ (save_to_csv cfg = true ->
        w_csv w' = Some (CsvHeader csv_columns :: map CsvRecord series)).
Proof.
  intros Hm.
  destruct (main_ok cfg frames w w' df Hm)
    as (_ & _ & _ & _ & obs & obss & _ & L & Ls & Ev & _ & F).
  pose proof (Buffer.length_cycle_rows obs L) as L5.
  destruct (Window.evolves_window _ _ _ _ Ev 0%nat (cycle_rows obs))
    as (d & Ld & ->); [lia | reflexivity |].
  exists (cycle_rows obs ++ flat_map cycle_rows obss), d.
  split; [|split; [exact Ld|split; [reflexivity|]]].
  - rewrite length_app, L5, (Buffer.evolves_rows_length _ _ _ _ Ev), Ls. lia.
  - intros S. now rewrite S in F.
Qed.

(** X5.  The size of the buffer after startup and [frames] frames, for any
    [max_length]: five rows per batch collected, until five more would
    exceed [max_length]; from then on it stays at the largest multiple of
    five within [max_length] - and at five, above the cap, when
    [max_length] is less than five. *)
Theorem buffer_size_after_frames
        (cfg : settings) (frames : nat) (w w' : World) (df : dataframe) :
  main cfg frames w = (Ok df, w') ->
  length df
  = Nat.min (5 * (frames + 1))
            (Nat.max 5 (5 * Z.to_nat (max_length cfg / 5))).
Proof.
  intros Hm.
  destruct (main_ok cfg frames w w' df Hm)
    as (_ & _ & _ & _ & obs & obss & _ & L & Ls & Ev & _).
  rewrite <- Ls.
  apply (Window.evolves_length _ _ _ _ Ev (Buffer.batch_nonempty obs L)
           (Frame.increasing_frame_of _) 0%nat).
  rewrite (Buffer.length_batch obs L). lia.
Qed.

(** X6.  On every buffer a run reaches, the unit filter of line 125 keeps
    exactly the TC1 and TC2 rows: VDD, TH1 and TH2 never reach the chart,
    and no thermocouple row is lost. *)
Theorem unit_filter_keeps_the_thermocouples
        (cfg : settings) (frames : nat) (w w' : World) (df : dataframe) :
  main cfg frames w = (Ok df, w') ->
  forall p,
    In p (temperature_rows df)
    <-> In p df /\ (row_id (snd p) = "TC1"%string
                    \/ row_id (snd p) = "TC2"%string).
Proof.
  intros Hm p.
  destruct (main_ok cfg frames w w' df Hm)
    as (_ & _ & _ & _ & obs & obss & _ & L & _ & Ev & _).
  destruct (Buffer.evolves_invariant _ _ _ _ Ev (Buffer.batch_nonempty obs L)
              (Frame.increasing_frame_of _)) as (_ & _ & _ & _ & Rw).
  pose proof (Window.evolves_batches _ _ _ _ Ev) as Fo.
  unfold temperature_rows. rewrite filter_In.
  assert (K : In p df ->
              (String.eqb (row_unit (snd p)) "T" = true
               <-> row_id (snd p) = "TC1"%string
                   \/ row_id (snd p) = "TC2"%string)).
  { intros I.
    destruct (Rw (snd p) (in_map snd _ _ I)) as [Q|Q].
    - rewrite Frame.rows_frame_of in Q.
      exact (Cycle.unit_T_iff_thermocouple obs _ L Q).
    - apply in_flat_map in Q. destruct Q as (o & Io & Q).
      rewrite Forall_forall in Fo.
      exact (Cycle.unit_T_iff_thermocouple o _ (Fo o Io) Q). }
  split; intros [I U]; (split; [exact I|]); apply (K I); exact U.
Qed.

(** X8.  In a run that ends normally the port was sent the four probes and
    then, once for startup and once per frame, the five commands of the
    table in the table's order - nothing else. *)
Theorem run_sends_probes_then_table_commands
        (cfg : settings) (frames : nat) (w w' : World) (df : dataframe) :
  main cfg frames w = (Ok df, w') ->
  writes_of (events_of (main cfg frames) w)
  = [[x00]; [x01]; [x02]; [x03]]
    ++ concat (repeat [[x10]; [x11]; [x12]; [x14]; [x15]] (frames + 1)).
Proof.
  intros Hm.
  destruct (main_ok cfg frames w w' df Hm)
    as (prints & d0 & d2 & d3 & obs & obss & P & L & Ls & Ev & T & _).
  destruct (Trace.prints_silent prints P) as (Wp & _).
  rewrite T, !Trace.writes_of_app, Wp, (Cycle.writes_of_cycle obs L),
    (Cycle.writes_of_cycles obss (Window.evolves_batches _ _ _ _ Ev)), Ls.
  replace (frames + 1)%nat with (S frames) by lia.
  reflexivity.
Qed.

(** X9.  In every run, failed or not, the port is used correctly: it is
    opened only when closed, written to, flushed and read only while open,
    closed only when open, and it is closed when the run ends. *)
Theorem port_used_only_while_open_and_left_closed
        (cfg : settings) (frames : nat) (w : World) :
  port_state false (events_of (main cfg frames) w) = Some false.
Proof.
  destruct (main_yields cfg frames w)
    as (prints & d0 & d1 & d2 & d3 & P & [[E Y]|[E Y]]).
  - rewrite (yields_events _ _ _ _ _ Y), Cycle.port_state_app,
      (Cycle.port_state_prints _ _ P).
    apply Cycle.port_state_handshake.
  - destruct Y as (obs & obss & df' & L & _ & Ev & Y).
    rewrite (yields_events _ _ _ _ _ Y).
    rewrite Cycle.port_state_app, (Cycle.port_state_prints _ _ P).
    rewrite Cycle.port_state_app, Cycle.port_state_handshake.
    rewrite Cycle.port_state_app, (Cycle.port_state_cycle obs L).
    apply Cycle.port_state_cycles, (Window.evolves_batches _ _ _ _ Ev).
Qed.

(** One cycle reads the clock five times, once per row. *)
Lemma poll_clock (w : World) :
  exists obs l',
    map fst obs = fst (clock_readings 5 (w_clock w))
    /\ length obs = 5%nat
    /\ with_serial kth_settings
         (for_each communication_specs read_sensor empty_frame) w
       = (Ok (frame_of (cycle_rows obs)),
          mkWorld l' (snd (clock_readings 5 (w_clock w))) (w_csv w)
                  (w_trace w ++ cycle_events obs)).
Proof.
  refine (ex_intro _ [(_, _); (_, _); (_, _); (_, _); (_, _)] _).
  eexists. split; [|split; [reflexivity|]].
  2:{ unfold with_serial.
      cbn -[decode concat_ignore_index frame_of cycle_rows cycle_events].
      unfold ret, emit.
      cbn -[decode concat_ignore_index frame_of cycle_rows cycle_events].
      rewrite <- !app_assoc.
      unfold concat_ignore_index. rewrite !Frame.rows_frame_of.
      cbn -[decode frame_of].
      reflexivity. }
  reflexivity.
Qed.

(** X7.  Every row of a batch carries its own reading of the clock: a cycle
    reads the clock exactly five times, in the order of the rows, and the
    k-th row's timestamp is the k-th reading.  The handshake does not read
    the clock and does not touch the file. *)
Theorem one_clock_reading_per_row :
  (forall (save : bool) (w : World),
      exists df,
        fst (get_new_sensor_values save w) = Ok df
        /\ map row_timestamp (rows df) = fst (clock_readings 5 (w_clock w))
        /\ w_clock (snd (get_new_sensor_values save w))
           = snd (clock_readings 5 (w_clock w)))
  /\ (forall w : World,
         w_clock (snd (check_connection w)) = w_clock w
         /\ w_csv (snd (check_connection w)) = w_csv w).
Proof.
  split.
  - intros save w. destruct (poll_clock w) as (obs & l' & T & L & E).
    exists (frame_of (cycle_rows obs)).
    rewrite Frame.rows_frame_of, (Cycle.timestamps obs L).
    unfold get_new_sensor_values, bind. rewrite E. cbn [fst snd].
    destruct save; cbn; auto.
  - intros w. split.
    + unfold check_connection, with_serial. cbn -[bytes_eqb].
      destruct (bytes_eqb _ _); reflexivity.
    + destruct (handshake_yields w) as (d0 & d1 & d2 & d3 & Y). apply Y.
Qed.

(** X10.  The handshake prints every answer as soon as it is read; the
    device ID in particular is on the terminal before it is checked, so a
    run that stops at the assertion has shown the bytes it rejected. *)
Theorem handshake_prints_what_it_reads (w : World) :
  exists d0 d1 d2 d3,
    (fst (check_connection w) = Ok tt ->
     d1 = [x0d; xee]
     /\ reads_of (events_of check_connection w)
        = [(100, d0); (100, d1); (100, d2); (100, d3)]%nat
     /\ filter is_print (events_of check_connection w)
        = [EvPrint [PBytes d0];
           EvPrint [PStr "Device ID: "; PBytes d1];
           EvPrint [PStr "Unique ID: "; PBytes d2];
           EvPrint [PStr "Firmware version: "; PBytes d3]])
    /\ (fst (check_connection w) = Raise AssertionError ->
        d1 <> [x0d; xee]
        /\ reads_of (events_of check_connection w)
           = [(100, d0); (100, d1)]%nat
        /\ filter is_print (events_of check_connection w)
           = [EvPrint [PBytes d0];
              EvPrint [PStr "Device ID: "; PBytes d1]]).
Proof.
  destruct (handshake_yields w) as (d0 & d1 & d2 & d3 & Y).
  exists d0, d1, d2, d3.
  rewrite (yields_events _ _ _ _ _ Y). destruct Y as (R & _). rewrite R.
  unfold handshake_events.
  destruct (bytes_eqb d1 [x0d; xee]) eqn:E.
  - apply Trace.bytes_eqb_eq in E.
    split; [|discriminate]. intros _.
    split; [exact E|]. split; reflexivity.
  - split; [discriminate|]. intros _.
    split; [|split; reflexivity].
    intros Q. apply Trace.bytes_eqb_eq in Q. congruence.
Qed.

End Extras.


(* ================================================================= *)
(** ** The further properties on the scripted device *)

(** A device that fails the handshake, saving on, an earlier log in the
    file: the file is as it was. *)
Lemma file_untouched_example :
  w_csv (snd (main module_settings 3
                   (Mock.boot Mock.stranger 0 (Some Mock.old_log))))
  = w_csv (Mock.boot Mock.stranger 0 (Some Mock.old_log)).
Proof.
  apply (@file_untouched_without_saving_or_on_failed_handshake
           Mock.line Z Mock.serial Mock.clock module_settings 3%nat
           (Mock.boot Mock.stranger 0 (Some Mock.old_log))).
  right. vm_compute. reflexivity.
Defined.

(** With a cap of twelve rows, after four frames on the thermometer: 25 rows
    collected, the buffer a window on them. *)
Lemma buffer_window_example :
  exists (series : list reading) (d : nat),
    length series = (5 * (4 + 1))%nat
    /\ (d < length series)%nat
    /\ ok_or [] (fst (main (mkSettings false true 12) 4
                           (Mock.boot Mock.kth 0 None)))
       = skipn d (frame_of series)
    /\ (save_to_csv (mkSettings false true 12) = true ->
        w_csv (snd (main (mkSettings false true 12) 4
                         (Mock.boot Mock.kth 0 None)))
        = Some (CsvHeader csv_columns :: map CsvRecord series)).
Proof.
  apply (@buffer_is_window_on_collected_rows
           Mock.line Z Mock.serial Mock.clock (mkSettings false true 12)
           4%nat (Mock.boot Mock.kth 0 None)
           (snd (main (mkSettings false true 12) 4
                      (Mock.boot Mock.kth 0 None)))).
  vm_compute. reflexivity.
Defined.

(** With a cap of twelve rows the buffer stays at ten. *)
Lemma buffer_size_example :
  length (ok_or [] (fst (main (mkSettings false true 12) 4
                              (Mock.boot Mock.kth 0 None))))
  = Nat.min (5 * (4 + 1))
            (Nat.max 5 (5 * Z.to_nat
                              (max_length (mkSettings false true 12) / 5))).
Proof.
  apply (@buffer_size_after_frames
           Mock.line Z Mock.serial Mock.clock (mkSettings false true 12)
           4%nat (Mock.boot Mock.kth 0 None)
           (snd (main (mkSettings false true 12) 4
                      (Mock.boot Mock.kth 0 None)))).
  vm_compute. reflexivity.
Defined.

(** The unit filter on the buffer after two frames on the thermometer. *)
Lemma unit_filter_example :
  fst (main module_settings 2 (Mock.boot Mock.kth 0 None))
  = Ok (ok_or [] (fst (main module_settings 2 (Mock.boot Mock.kth 0 None))))
  /\ forall p,
       In p (temperature_rows
               (ok_or [] (fst (main module_settings 2
                                    (Mock.boot Mock.kth 0 None)))))
       <-> In p (ok_or [] (fst (main module_settings 2
                                     (Mock.boot Mock.kth 0 None))))
           /\ (row_id (snd p) = "TC1"%string
               \/ row_id (snd p) = "TC2"%string).
Proof.
  split; [vm_compute; reflexivity|].
  apply (@unit_filter_keeps_the_thermocouples
           Mock.line Z Mock.serial Mock.clock module_settings 2%nat
           (Mock.boot Mock.kth 0 None)
           (snd (main module_settings 2 (Mock.boot Mock.kth 0 None)))).
  vm_compute. reflexivity.
Defined.

(** What is written to the thermometer in a run of two frames. *)
Lemma run_writes_example :
  writes_of (events_of (main module_settings 2) (Mock.boot Mock.kth 0 None))
  = [[x00]; [x01]; [x02]; [x03]]
    ++ concat (repeat [[x10]; [x11]; [x12]; [x14]; [x15]] (2 + 1)).
Proof.
  apply (@run_sends_probes_then_table_commands
           Mock.line Z Mock.serial Mock.clock module_settings 2%nat
           (Mock.boot Mock.kth 0 None)
           (snd (main module_settings 2 (Mock.boot Mock.kth 0 None)))
           (ok_or [] (fst (main module_settings 2
                                (Mock.boot Mock.kth 0 None))))).
  vm_compute. reflexivity.
Defined.

(** The handshake with a device that answers the ID probe wrongly: the two
    answers read are the two lines printed. *)
Lemma handshake_prints_example :
  exists d0 d1 d2 d3,
    (fst (check_connection (Mock.boot Mock.stranger 0 None)) = Ok tt ->
     d1 = [x0d; xee]
     /\ reads_of (events_of check_connection (Mock.boot Mock.stranger 0 None))
        = [(100, d0); (100, d1); (100, d2); (100, d3)]%nat
     /\ filter is_print
          (events_of check_connection (Mock.boot Mock.stranger 0 None))
        = [EvPrint [PBytes d0];
           EvPrint [PStr "Device ID: "; PBytes d1];
           EvPrint [PStr "Unique ID: "; PBytes d2];
           EvPrint [PStr "Firmware version: "; PBytes d3]])
    /\ (fst (check_connection (Mock.boot Mock.stranger 0 None))
        = Raise AssertionError ->
        d1 <> [x0d; xee]
        /\ reads_of (events_of check_connection
                               (Mock.boot Mock.stranger 0 None))
           = [(100, d0); (100, d1)]%nat
        /\ filter is_print
             (events_of check_connection (Mock.boot Mock.stranger 0 None))
           = [EvPrint [PBytes d0];
              EvPrint [PStr "Device ID: "; PBytes d1]]).
Proof.
  apply (handshake_prints_what_it_reads (Mock.boot Mock.stranger 0 None)).
Defined.
